(** * appaudiencias: the transcription and text-to-speech panels

    A shallow embedding of [components/TranscriptionPanel.tsx], of the
    [TextToSpeechPanel] component and of [services/geminiService.ts].

    Every React handler becomes a state transformer over a record that holds
    the component's [useState] cells, its [useRef] cells, the variables
    captured by the session callbacks, and a chronological log of the calls
    made to the outside world (streaming service, microphone, timers,
    document parsers).  An [await] hands control to the outside world: what
    it delivers (a granted or refused microphone, a decoded or rejected
    file, a service response) is an argument of the handler.  Handlers run
    one after another, each on the state the previous one left: the
    component is rendered again between two events, so a handler reads
    the state of the last render. *)

From Stdlib Require Import String Ascii ZArith Lia.
From stdpp Require Import base list strings pretty.
From Equations Require Import Equations.

Local Open Scope string_scope.
Local Open Scope list_scope.

(** ** The JavaScript fragments the handlers rely on *)

(** [process.env]: the single credential. *)
Record Env := { API_KEY : option string }.

(** Truthiness of a [string | undefined]: [undefined] and the empty string
    are falsy. *)
Definition truthy (v : option string) : bool :=
  match v with
  | None => false
  | Some s => negb (String.eqb s "")
  end.

(** [acc += v] on a string accumulator, where [v] may be [undefined]. *)
Definition js_append (acc : string) (v : option string) : string :=
  acc +:+ default "undefined" v.

(** [a.slice(b, e)] on an array, for indices [0 <= b]: the elements at
    positions [b] to [e - 1], as many of them as exist. *)
Definition slice {A} (b e : nat) (a : list A) : list A :=
  take (e - b) (drop b a).
Arguments slice : simpl never.

(** [s.endsWith(suffix)]. *)
Definition endsWith (s suffix : string) : bool :=
  let n := String.length s in
  let m := String.length suffix in
  (m <=? n)%nat && String.eqb (substring (n - m) m s) suffix.

(** [items.join(sep)]. *)
Definition join (sep : string) (items : list string) : string :=
  String.concat sep items.

(** A [File] of a file input, by its name and MIME type. *)
Record File := { name : string; type : string }.

(** How an awaited promise settles: rejected with an error whose [message]
    is given, or resolved with a value.  The same type is the result of a
    function that may [throw]. *)
Inductive Settled (A : Type) :=
| Rejected (message : string)
| Resolved (value : A).
Arguments Rejected {A} _.
Arguments Resolved {A} _.

Definition andThen {A B} (r : Settled A) (k : A -> Settled B) : Settled B :=
  match r with
  | Rejected message => Rejected message
  | Resolved value => k value
  end.

(** A state monad with the handlers' sequencing. *)
Definition M (St A : Type) : Type := St -> A * St.

Definition ret {St A} (a : A) : M St A := fun s => (a, s).

Definition bind {St A B} (m : M St A) (k : A -> M St B) : M St B :=
  fun s => let (a, s') := m s in k a s'.

Definition exec {St A} (m : M St A) (s : St) : St := snd (m s).

Declare Scope handler_scope.
Delimit Scope handler_scope with handler.
Notation "x <- m ;; k" := (bind m (fun x => k))
  (at level 100, m at next level, k at level 200, right associativity)
  : handler_scope.
Notation "m ;; k" := (bind m (fun _ => k))
  (at level 100, k at level 200, right associativity) : handler_scope.

Definition when {St} (b : bool) (m : M St unit) : M St unit :=
  if b then m else ret tt.

Fixpoint forEach {St A} (f : A -> M St unit) (l : list A) : M St unit :=
  match l with
  | [] => ret tt
  | x :: l' => bind (f x) (fun _ => forEach f l')
  end.

Module TranscriptionPanel.

Local Open Scope handler_scope.

Definition TARGET_SAMPLE_RATE : Z := 16000.

(** *** Messages of the streaming service *)

Record Transcription := { text : option string }.

Record ServerContent := {
  inputTranscription : option Transcription;
  turnComplete : option bool
}.

Record LiveServerMessage := { serverContent : option ServerContent }.

Record GenAIBlob := { data : string; mimeType : string }.

(** *** Browser objects *)

Inductive AudioContextState := running | suspended | closed.

(** A [MediaStream], by the identifiers of its tracks. *)
Definition MediaStream := list nat.

(** An [AudioBuffer], by its rate and the samples of channel 0. *)
Record AudioBuffer (sample : Type) := {
  sampleRate : Z;
  channelData0 : list sample
}.
Arguments sampleRate {sample} _.
Arguments channelData0 {sample} _.

(** *** Calls to the outside world, in the order they are made *)

Inductive Effect :=
| LiveConnect (session : nat)
| SessionClose (session : nat)
| SendRealtimeInput (session : nat) (media : GenAIBlob)
| GetUserMedia
| TrackStop (track : nat)
| ScriptProcessorDisconnect
| MediaStreamSourceDisconnect
| AudioContextClose
| DecodeAudioData
| TempAudioContextClose
| Delay (ms : Z)
| SetTimeout (ms : Z).

(** *** Component state

    [currentTranscription] holds, for each call of [startSession] that
    reached [ai.live.connect], the [let currentTranscription] captured by
    that session's callbacks; a session is named by its index there.
    [scriptProcessorRef] remembers the session that the node's
    [onaudioprocess] callback captured. *)
Record State := mkState {
  isRecording : bool;
  isProcessing : bool;
  transcription : string;
  error : option string;
  sessionPromiseRef : option nat;
  audioContextRef : option AudioContextState;
  mediaStreamRef : option MediaStream;
  scriptProcessorRef : option nat;
  mediaStreamSourceRef : option unit;
  currentTranscription : list string;
  log : list Effect
}.

Definition initial : State :=
  mkState false false "" None None None None None None [] [].

Definition setIsRecording (v : bool) : M State unit := fun s =>
  (tt, mkState v (isProcessing s) (transcription s) (error s)
         (sessionPromiseRef s) (audioContextRef s) (mediaStreamRef s)
         (scriptProcessorRef s) (mediaStreamSourceRef s)
         (currentTranscription s) (log s)).

Definition setIsProcessing (v : bool) : M State unit := fun s =>
  (tt, mkState (isRecording s) v (transcription s) (error s)
         (sessionPromiseRef s) (audioContextRef s) (mediaStreamRef s)
         (scriptProcessorRef s) (mediaStreamSourceRef s)
         (currentTranscription s) (log s)).

Definition setTranscription (v : string) : M State unit := fun s =>
  (tt, mkState (isRecording s) (isProcessing s) v (error s)
         (sessionPromiseRef s) (audioContextRef s) (mediaStreamRef s)
         (scriptProcessorRef s) (mediaStreamSourceRef s)
         (currentTranscription s) (log s)).

Definition setError (v : option string) : M State unit := fun s =>
  (tt, mkState (isRecording s) (isProcessing s) (transcription s) v
         (sessionPromiseRef s) (audioContextRef s) (mediaStreamRef s)
         (scriptProcessorRef s) (mediaStreamSourceRef s)
         (currentTranscription s) (log s)).

Definition setSessionPromiseRef (v : option nat) : M State unit := fun s =>
  (tt, mkState (isRecording s) (isProcessing s) (transcription s) (error s)
         v (audioContextRef s) (mediaStreamRef s)
         (scriptProcessorRef s) (mediaStreamSourceRef s)
         (currentTranscription s) (log s)).

Definition setAudioContextRef (v : option AudioContextState) : M State unit :=
  fun s =>
  (tt, mkState (isRecording s) (isProcessing s) (transcription s) (error s)
         (sessionPromiseRef s) v (mediaStreamRef s)
         (scriptProcessorRef s) (mediaStreamSourceRef s)
         (currentTranscription s) (log s)).

Definition setMediaStreamRef (v : option MediaStream) : M State unit :=
  fun s =>
  (tt, mkState (isRecording s) (isProcessing s) (transcription s) (error s)
         (sessionPromiseRef s) (audioContextRef s) v
         (scriptProcessorRef s) (mediaStreamSourceRef s)
         (currentTranscription s) (log s)).

Definition setScriptProcessorRef (v : option nat) : M State unit := fun s =>
  (tt, mkState (isRecording s) (isProcessing s) (transcription s) (error s)
         (sessionPromiseRef s) (audioContextRef s) (mediaStreamRef s)
         v (mediaStreamSourceRef s)
         (currentTranscription s) (log s)).

Definition setMediaStreamSourceRef (v : option unit) : M State unit :=
  fun s =>
  (tt, mkState (isRecording s) (isProcessing s) (transcription s) (error s)
         (sessionPromiseRef s) (audioContextRef s) (mediaStreamRef s)
         (scriptProcessorRef s) v
         (currentTranscription s) (log s)).

Definition setCurrentTranscription (v : list string) : M State unit :=
  fun s =>
  (tt, mkState (isRecording s) (isProcessing s) (transcription s) (error s)
         (sessionPromiseRef s) (audioContextRef s) (mediaStreamRef s)
         (scriptProcessorRef s) (mediaStreamSourceRef s)
         v (log s)).

Definition emit (e : Effect) : M State unit := fun s =>
  (tt, mkState (isRecording s) (isProcessing s) (transcription s) (error s)
         (sessionPromiseRef s) (audioContextRef s) (mediaStreamRef s)
         (scriptProcessorRef s) (mediaStreamSourceRef s)
         (currentTranscription s) (log s ++ [e])).

Definition get {A} (f : State -> A) : M State A := fun s => (f s, s).

(** *** The session callbacks of [startSession] *)

Definition onopen : M State unit := setError None.

(** [onmessage] of the session whose captured variable is cell [session].
    The last statement of the callback only reads [modelTurn] and changes
    nothing, so it has no counterpart here. *)
Definition onmessage (session : nat) (message : LiveServerMessage)
  : M State unit :=
  let content := serverContent message in
  match content ≫= inputTranscription with
  | Some tr =>
      cells <- get currentTranscription ;;
      match cells !! session with
      | Some cur =>
          let cur' := js_append cur (text tr) in
          setCurrentTranscription (<[session := cur']> cells) ;;
          setTranscription cur'
      | None => ret tt
      end
  | None => ret tt
  end ;;
  match content ≫= turnComplete with
  | Some true =>
      cells <- get currentTranscription ;;
      match cells !! session with
      | Some cur =>
          setCurrentTranscription (<[session := cur +:+ " "]> cells)
      | None => ret tt
      end
  | _ => ret tt
  end.

Definition onerror : M State unit :=
  setError (Some "Error en la sesión de transcripción. Intente de nuevo.") ;;
  setIsRecording false ;;
  setIsProcessing false.

Definition onclose : M State unit := ret tt.

(** *** [startSession] and [stopSession] *)

Definition startSession (env : Env) : M State (option nat) :=
  if negb (truthy (API_KEY env)) then
    setError (Some "API_KEY environment variable not set.") ;;
    ret None
  else
    cells <- get currentTranscription ;;
    let session := length cells in
    setCurrentTranscription (cells ++ [""]) ;;
    emit (LiveConnect session) ;;
    setSessionPromiseRef (Some session) ;;
    ret (Some session).

Definition stopSession : M State unit :=
  ref <- get sessionPromiseRef ;;
  match ref with
  | Some session =>
      emit (SessionClose session) ;;
      setSessionPromiseRef None
  | None => ret tt
  end.

(** *** Recording from the microphone

    The functions of [../utils/audioUtils] are not part of the sources at
    hand: the PCM encoder and the resampler are parameters. *)

Section AudioUtils.

Context {sample : Type}.
Variable float32ArrayToPCM16Base64 : list sample -> string.
Variable resampleAudioBuffer : AudioBuffer sample -> Z -> AudioBuffer sample.

Definition createGenAIBlob (data : list sample) : GenAIBlob :=
  {| data := float32ArrayToPCM16Base64 data;
     mimeType := "audio/pcm;rate=" +:+ pretty TARGET_SAMPLE_RATE |}.

(** [mic] is what [getUserMedia] delivers: a stream, or [None] when the
    promise is rejected.  The statements of the [try] after it build the
    audio graph and are taken not to throw. *)
Definition startRecording (env : Env) (mic : option MediaStream)
  : M State unit :=
  recording <- get isRecording ;;
  if recording then ret tt
  else
    setTranscription "" ;;
    setError None ;;
    setIsRecording true ;;
    sessionPromise <- startSession env ;;
    match sessionPromise with
    | None => setIsRecording false
    | Some session =>
        emit GetUserMedia ;;
        match mic with
        | Some stream =>
            setMediaStreamRef (Some stream) ;;
            setAudioContextRef (Some running) ;;
            setMediaStreamSourceRef (Some tt) ;;
            setScriptProcessorRef (Some session)
        | None =>
            setError (Some
              "No se pudo acceder al micrófono. Por favor, verifique los permisos.") ;;
            setIsRecording false ;;
            stopSession
        end
    end.

(** [scriptProcessor.onaudioprocess], when the node is still referenced. *)
Definition onaudioprocess (inputData : list sample) : M State unit :=
  node <- get scriptProcessorRef ;;
  match node with
  | Some session =>
      emit (SendRealtimeInput session (createGenAIBlob inputData))
  | None => ret tt
  end.

Definition stopRecording : M State unit :=
  setIsRecording false ;;
  stopSession ;;
  stream <- get mediaStreamRef ;;
  forEach (fun track => emit (TrackStop track)) (default [] stream) ;;
  node <- get scriptProcessorRef ;;
  when (bool_decide (is_Some node)) (emit ScriptProcessorDisconnect) ;;
  source <- get mediaStreamSourceRef ;;
  when (bool_decide (is_Some source)) (emit MediaStreamSourceDisconnect) ;;
  context <- get audioContextRef ;;
  match context with
  | Some closed => ret tt
  | Some _ => emit AudioContextClose
  | None => ret tt
  end ;;
  setMediaStreamRef None ;;
  setScriptProcessorRef None ;;
  setMediaStreamSourceRef None ;;
  setAudioContextRef None.

(** *** Transcribing an uploaded file *)

Definition chunkSize : nat := 4096.

(** The [for] loop of [handleFileUpload], from index [i] on. *)
Equations? sendChunks (session : nat) (audioData : list sample) (i : nat)
  : M State unit by wf (length audioData - i) lt :=
  sendChunks session audioData i with decide (i < length audioData) := {
    | left _ =>
        let chunk := slice i (i + chunkSize) audioData in
        when (0 <? length chunk)%nat
          (emit (SendRealtimeInput session (createGenAIBlob chunk))) ;;
        emit (Delay 50) ;;
        sendChunks session audioData (i + chunkSize)
    | right _ => ret tt }.
Proof. unfold chunkSize. lia. Qed.

(** What the awaited promises of [handleFileUpload] deliver:
    [decoded] is [None] when [decodeAudioData] rejects the file,
    [sessionOpened] is [false] when [await sessionPromise] is rejected. *)
Record UploadOutcome := {
  decoded : option (AudioBuffer sample);
  sessionOpened : bool
}.

Definition handleFileUpload_catch : M State unit :=
  setError (Some "Error al procesar el archivo de audio.") ;;
  setIsProcessing false ;;
  stopSession.

Definition handleFileUpload (env : Env) (file : option File)
  (outcome : UploadOutcome) : M State unit :=
  match file with
  | None => ret tt
  | Some _ =>
      setTranscription "" ;;
      setError None ;;
      setIsProcessing true ;;
      sessionPromise <- startSession env ;;
      match sessionPromise with
      | None => setIsProcessing false
      | Some session =>
          emit DecodeAudioData ;;
          match decoded outcome with
          | None => handleFileUpload_catch
          | Some decodedBuffer =>
              emit TempAudioContextClose ;;
              let resampledBuffer :=
                resampleAudioBuffer decodedBuffer TARGET_SAMPLE_RATE in
              let audioData := channelData0 resampledBuffer in
              if sessionOpened outcome then
                sendChunks session audioData 0 ;;
                emit (SetTimeout 2000)
              else handleFileUpload_catch
          end
      end
  end.

(** The callback that [handleFileUpload] schedules after the last chunk. *)
Definition handleFileUpload_timeout : M State unit :=
  stopSession ;;
  setIsProcessing false.

(** *** Everything that can happen to the panel *)

Inductive Op :=
| StartRecording (mic : option MediaStream)
| StopRecording
| AudioProcess (inputData : list sample)
| FileUpload (file : option File) (outcome : UploadOutcome)
| FileUploadTimeout
| SessionOpen
| SessionMessage (session : nat) (message : LiveServerMessage)
| SessionError
| SessionClosed.

Definition step (env : Env) (s : State) (op : Op) : State :=
  match op with
  | StartRecording mic => exec (startRecording env mic) s
  | StopRecording => exec stopRecording s
  | AudioProcess inputData => exec (onaudioprocess inputData) s
  | FileUpload file outcome => exec (handleFileUpload env file outcome) s
  | FileUploadTimeout => exec handleFileUpload_timeout s
  | SessionOpen => exec onopen s
  | SessionMessage session message => exec (onmessage session message) s
  | SessionError => exec onerror s
  | SessionClosed => exec onclose s
  end.

Definition run (env : Env) (ops : list Op) (s : State) : State :=
  foldl (step env) s ops.

End AudioUtils.

(** *** The transcript accumulator, as the specification words it *)

Inductive TranscriptEvent :=
| PartialText (s : string)
| TurnComplete.

(** The service message that carries an event. *)
Definition message_of (ev : TranscriptEvent) : LiveServerMessage :=
  match ev with
  | PartialText s =>
      {| serverContent := Some {| inputTranscription := Some {| text := Some s |};
                                  turnComplete := None |} |}
  | TurnComplete =>
      {| serverContent := Some {| inputTranscription := None;
                                  turnComplete := Some true |} |}
  end.

Definition apply_event (acc : string) (ev : TranscriptEvent) : string :=
  match ev with
  | PartialText s => acc +:+ s
  | TurnComplete => acc +:+ " "
  end.

Definition accumulate (evs : list TranscriptEvent) : string :=
  foldl apply_event "" evs.

(** The events delivered in order to the [onmessage] of one session. *)
Definition deliver (session : nat) (evs : list TranscriptEvent) (s : State)
  : State :=
  foldl (fun s ev => exec (onmessage session (message_of ev)) s) s evs.

(** The events up to and including the last [PartialText]. *)
Fixpoint up_to_last_partial (evs : list TranscriptEvent)
  : list TranscriptEvent :=
  match evs with
  | [] => []
  | ev :: evs' =>
      match up_to_last_partial evs', ev with
      | [], TurnComplete => []
      | rest, _ => ev :: rest
      end
  end.

(** *** Sessions that are open after a log of calls *)

Definition session_step (open : list nat) (e : Effect) : list nat :=
  match e with
  | LiveConnect session => open ++ [session]
  | SessionClose session => filter (fun i => i ≠ session) open
  | _ => open
  end.

Definition open_sessions (l : list Effect) : list nat :=
  foldl session_step [] l.

(** The sessions that are open are those the session reference holds, and
    it holds none while the panel is not recording. *)
Definition one_session (s : State) : Prop :=
  open_sessions (log s) = option_list (sessionPromiseRef s) /\
  (isRecording s = false -> sessionPromiseRef s = None).

Definition is_LiveConnect (e : Effect) : bool :=
  match e with LiveConnect _ => true | _ => false end.

Definition is_SessionClose (e : Effect) : bool :=
  match e with SessionClose _ => true | _ => false end.

Definition is_SendRealtimeInput (e : Effect) : bool :=
  match e with SendRealtimeInput _ _ => true | _ => false end.

Definition calls (p : Effect -> bool) (l : list Effect) : nat :=
  length (List.filter p l).
Arguments calls : simpl never.

(** Several calls in a row, and what [stopRecording] releases in a state. *)
Definition emitAll (es : list Effect) : M State unit := fun s =>
  (tt, mkState (isRecording s) (isProcessing s) (transcription s) (error s)
         (sessionPromiseRef s) (audioContextRef s) (mediaStreamRef s)
         (scriptProcessorRef s) (mediaStreamSourceRef s)
         (currentTranscription s) (log s ++ es)).

Definition released (s : State) : list Effect :=
  match sessionPromiseRef s with
  | Some session => [SessionClose session]
  | None => []
  end ++
  map TrackStop (default [] (mediaStreamRef s)) ++
  match scriptProcessorRef s with
  | Some _ => [ScriptProcessorDisconnect]
  | None => []
  end ++
  match mediaStreamSourceRef s with
  | Some _ => [MediaStreamSourceDisconnect]
  | None => []
  end ++
  match audioContextRef s with
  | Some running | Some suspended => [AudioContextClose]
  | _ => []
  end.

(** *** Chunking, as the specification words it *)

Definition ceil_div (n d : nat) : nat := (n + (d - 1)) / d.
Arguments ceil_div : simpl never.

(** The consecutive slices of [c] samples of a buffer, in order. *)
Definition chunks_in_order {sample} (c : nat) (buffer : list sample)
  : list (list sample) :=
  map (fun k => slice (k * c) (k * c + c) buffer)
      (seq 0 (ceil_div (length buffer) c)).

(** *** Concrete parameters for the examples: integer samples, an encoder
    that prints the chunk length, a resampler that relabels the rate. *)

Definition example_encoder (chunk : list Z) : string :=
  pretty (length chunk).

Definition example_resampler (buffer : AudioBuffer Z) (rate : Z)
  : AudioBuffer Z :=
  {| sampleRate := rate; channelData0 := channelData0 buffer |}.

Definition example_env : Env := {| API_KEY := Some "key" |}.

Definition no_credential : Env := {| API_KEY := None |}.

Definition example_file : File :=
  {| name := "audiencia.wav"; type := "audio/wav" |}.

Definition undecodable : UploadOutcome (sample := Z) :=
  {| decoded := None; sessionOpened := true |}.

(** One second of audio, already at 16000 Hz. *)
Definition one_second_buffer : AudioBuffer Z :=
  {| sampleRate := 16000; channelData0 := repeat 0%Z (Z.to_nat 16000) |}.

Definition one_second_upload : UploadOutcome :=
  {| decoded := Some one_second_buffer; sessionOpened := true |}.

(** *** The rest of the component *)



(** The panel mounted anew: fresh [useState] and [useRef] cells.  The
    sessions that exist and the calls that were made remain. *)
Definition mount (s : State) : State :=
  mkState false false "" None None None None None None
    (currentTranscription s) (log s).

(** Any messages delivered in order to the [onmessage] of one session. *)
Definition deliverMessages (session : nat) (messages : list LiveServerMessage)
  (s : State) : State :=
  foldl (fun s message => exec (onmessage session message) s) s messages.

(** What a message adds to the transcript: the text of its
    [inputTranscription], when it has one, and whether it ends a turn. *)
Definition transcribed (message : LiveServerMessage) : option string :=
  tr ← serverContent message ≫= inputTranscription;
  Some (default "undefined" (text tr)).

Definition turn_ends (message : LiveServerMessage) : bool :=
  match serverContent message ≫= turnComplete with
  | Some true => true
  | _ => false
  end.

Fixpoint spaces (k : nat) : string :=
  match k with
  | O => ""
  | S k' => " " +:+ spaces k'
  end.

(** The sessions connected, the sessions asked to close and the media
    sent, in the order of the log. *)
Definition connected (l : list Effect) : list nat :=
  omap (fun e => match e with LiveConnect i => Some i | _ => None end) l.

Definition close_requests (l : list Effect) : list nat :=
  omap (fun e => match e with SessionClose i => Some i | _ => None end) l.

Definition media_sent (l : list Effect) : list (nat * GenAIBlob) :=
  omap (fun e => match e with
                 | SendRealtimeInput i media => Some (i, media)
                 | _ => None
                 end) l.

Definition is_Delay (e : Effect) : bool :=
  match e with Delay _ => true | _ => false end.

Definition is_SetTimeout (e : Effect) : bool :=
  match e with SetTimeout _ => true | _ => false end.

Section UploadCalls.

Context {sample : Type}.
Variable float32ArrayToPCM16Base64 : list sample -> string.
Variable resampleAudioBuffer : AudioBuffer sample -> Z -> AudioBuffer sample.

(** The samples an upload sends: those of channel 0 of the resampled
    buffer, when the file is decoded and the session opens. *)
Definition upload_samples (outcome : UploadOutcome) : option (list sample) :=
  buffer ← decoded outcome;
  if sessionOpened outcome
  then Some (channelData0 (resampleAudioBuffer buffer TARGET_SAMPLE_RATE))
  else None.

(** The calls of an upload that has a credential, for session [session]. *)
Definition upload_calls (session : nat) (outcome : UploadOutcome)
  : list Effect :=
  [LiveConnect session; DecodeAudioData] ++
  match decoded outcome with
  | None => [SessionClose session]
  | Some buffer =>
      TempAudioContextClose ::
      if sessionOpened outcome then
        flat_map
          (fun chunk =>
             [SendRealtimeInput session
                (createGenAIBlob float32ArrayToPCM16Base64 chunk);
              Delay 50])
          (chunks_in_order chunkSize
             (channelData0 (resampleAudioBuffer buffer TARGET_SAMPLE_RATE)))
        ++ [SetTimeout 2000]
      else [SessionClose session]
  end.

End UploadCalls.


(** The invariant of the panel's bookkeeping of sessions: sessions are
    numbered in the order they are connected; no session is asked to close
    twice, and only connected ones are; the session reference and the audio
    node hold connected sessions, the reference one not yet asked to close;
    every media sent went to a connected session, declared at the target
    rate. *)
Record sessions_tracked (s : State) : Prop := {
  tracked_connected :
    connected (log s) = seq 0 (length (currentTranscription s));
  tracked_closed_once : NoDup (close_requests (log s));
  tracked_closed_connected :
    Forall (fun i => i < length (currentTranscription s))%nat
      (close_requests (log s));
  tracked_reference :
    forall i, sessionPromiseRef s = Some i ->
      (i < length (currentTranscription s))%nat /\
      i ∉ close_requests (log s);
  tracked_node :
    forall i, scriptProcessorRef s = Some i ->
      (i < length (currentTranscription s))%nat;
  tracked_media :
    Forall (fun sent =>
              (fst sent < length (currentTranscription s))%nat /\
              mimeType (snd sent) = "audio/pcm;rate=16000")
      (media_sent (log s))
}.


End TranscriptionPanel.

(** ** [services/geminiService.ts] *)

Module GeminiService.

Record InlineData := { data : option string }.
Record Part := { inlineData : option InlineData }.
Record Content := { parts : option (list Part) }.
Record Candidate := { content : option Content }.
Record GenerateContentResponse := { candidates : option (list Candidate) }.

(** [response.candidates?.[0]?.content?.parts?.[0]?.inlineData?.data] *)
Definition base64Audio (response : GenerateContentResponse) : option string :=
  all ← candidates response;
  candidate ← all !! 0%nat;
  content ← content candidate;
  parts ← parts content;
  part ← parts !! 0%nat;
  inlineData ← inlineData part;
  data inlineData.

(** [generateSpeechFromText(text)], given how [ai.models.generateContent]
    settles.  The first component tells whether the service was called. *)
Definition generateSpeechFromText (env : Env) (text : string)
  (service : Settled GenerateContentResponse) : bool * Settled string :=
  if negb (truthy (API_KEY env)) then
    (false, Rejected "API_KEY environment variable not set.")
  else
    (true,
     andThen service (fun response =>
       if negb (truthy (base64Audio response)) then
         Rejected "No audio data received from API."
       else Resolved (default "" (base64Audio response)))).

End GeminiService.

(** ** The [TextToSpeechPanel] component *)

Module TextToSpeechPanel.

Import GeminiService.
Local Open Scope handler_scope.

Inductive Effect :=
| ReadAsArrayBuffer
| PdfGetDocument
| PdfGetPage (i : nat)
| MammothExtractRawText
| GenerateContent (text : string)
| CreateObjectURL.

Record State := mkState {
  text : string;
  audioUrl : option string;
  isLoading : bool;
  error : option string;
  log : list Effect
}.

Definition initial : State := mkState "" None false None [].

Definition setText (v : string) : M State unit := fun s =>
  (tt, mkState v (audioUrl s) (isLoading s) (error s) (log s)).

Definition setAudioUrl (v : option string) : M State unit := fun s =>
  (tt, mkState (text s) v (isLoading s) (error s) (log s)).

Definition setIsLoading (v : bool) : M State unit := fun s =>
  (tt, mkState (text s) (audioUrl s) v (error s) (log s)).

Definition setError (v : option string) : M State unit := fun s =>
  (tt, mkState (text s) (audioUrl s) (isLoading s) v (log s)).

Definition emit (e : Effect) : M State unit := fun s =>
  (tt, mkState (text s) (audioUrl s) (isLoading s) (error s) (log s ++ [e])).

Definition get {A} (f : State -> A) : M State A := fun s => (f s, s).

(** *** Loading a document

    What the document readers deliver for the chosen file: whether the
    [FileReader] fires [onload]; for pdf.js, [None] when [getDocument]
    rejects, else for each page the [str] of its text items, [None] for a
    page whose promises reject; for mammoth, [None] when [extractRawText]
    rejects, else [result.value]. *)
Record ReadOutcome := {
  loaded : bool;
  pdf : option (list (option (list string)));
  docx : option string
}.

(** The [for] loop over the pages, from page [i] on; [None] when a page
    throws. *)
Fixpoint readPages (pages : list (option (list string))) (i : nat)
  (content : string) : M State (option string) :=
  match pages with
  | [] => ret (Some content)
  | page :: pages' =>
      emit (PdfGetPage i) ;;
      match page with
      | None => ret None
      | Some items => readPages pages' (S i) (content +:+ join " " items)
      end
  end.

Definition pdf_onload (outcome : ReadOutcome) : M State unit :=
  emit PdfGetDocument ;;
  content <- match pdf outcome with
             | None => ret None
             | Some pages => readPages pages 1 ""
             end ;;
  match content with
  | Some content => setText content
  | None =>
      setError (Some "No se pudo procesar el archivo PDF.") ;;
      setText ""
  end ;;
  setIsLoading false.

Definition docx_onload (outcome : ReadOutcome) : M State unit :=
  emit MammothExtractRawText ;;
  match docx outcome with
  | Some value => setText value
  | None =>
      setError (Some "No se pudo procesar el archivo DOCX.") ;;
      setText ""
  end ;;
  setIsLoading false.

(** [handleFileChange].  The outer [catch] guards the two synchronous
    [FileReader] calls, which are taken not to throw; the final reset of the
    file input changes nothing of the state and is left out. *)
Definition handleFileChange (file : option File) (outcome : ReadOutcome)
  : M State unit :=
  match file with
  | None => ret tt
  | Some file =>
      setError None ;;
      setIsLoading true ;;
      setAudioUrl None ;;
      setText ("Procesando archivo: " +:+ name file +:+ "...") ;;
      if String.eqb (type file) "application/pdf" then
        emit ReadAsArrayBuffer ;;
        when (loaded outcome) (pdf_onload outcome)
      else if endsWith (name file) ".docx" then
        emit ReadAsArrayBuffer ;;
        when (loaded outcome) (docx_onload outcome)
      else
        setError (Some
          "Tipo de archivo no soportado. Por favor, suba un PDF o DOCX.") ;;
        setText "" ;;
        setIsLoading false
  end.

(** *** Generating the audio

    [String.prototype.trim], [URL.createObjectURL] and the functions
    [decode] and [pcmToWavBlob] of [../utils/audioUtils] are parameters;
    [decode] may throw. *)

Section Synthesis.

Context {Uint8Array Blob : Type}.
Variable trim : string -> string.
Variable decode : string -> Settled Uint8Array.
Variable pcmToWavBlob : Uint8Array -> Z -> Z -> Z -> Blob.
Variable createObjectURL : Blob -> string.

(** The statements before the [try]. *)
Definition handleGenerateAudio_begin : M State unit :=
  setError None ;;
  setIsLoading true ;;
  setAudioUrl None.

(** The [try]/[catch]/[finally], given how the service settles. *)
Definition handleGenerateAudio_try (env : Env) (text : string)
  (service : Settled GenerateContentResponse) : M State unit :=
  let (called, base64Audio) := generateSpeechFromText env text service in
  when called (emit (GenerateContent text)) ;;
  match andThen base64Audio decode with
  | Resolved audioBytes =>
      let blob := pcmToWavBlob audioBytes 24000 1 16 in
      emit CreateObjectURL ;;
      setAudioUrl (Some (createObjectURL blob))
  | Rejected message =>
      setError (Some ("Fallo al generar audio: " +:+ message))
  end ;;
  setIsLoading false.

Definition handleGenerateAudio (env : Env)
  (service : Settled GenerateContentResponse) : M State unit :=
  text <- get text ;;
  loading <- get isLoading ;;
  if String.eqb (trim text) "" || loading then ret tt
  else
    handleGenerateAudio_begin ;;
    handleGenerateAudio_try env text service.

End Synthesis.

(** The MIME types of the two document formats the panel announces. *)
Definition supported_mime_type (t : string) : bool :=
  String.eqb t "application/pdf" ||
  String.eqb t
    "application/vnd.openxmlformats-officedocument.wordprocessingml.document".

(** *** Concrete parameters for the examples: a [trim] for the ASCII white
    space, byte arrays and blobs as strings, an identity decoder. *)

Definition is_space (c : ascii) : bool :=
  let n := nat_of_ascii c in
  (n =? 32)%nat || ((9 <=? n)%nat && (n <=? 13)%nat).

Fixpoint skip_spaces (l : list ascii) : list ascii :=
  match l with
  | c :: l' => if is_space c then skip_spaces l' else l
  | [] => []
  end.

Definition example_trim (s : string) : string :=
  string_of_list_ascii
    (rev (skip_spaces (rev (skip_spaces (list_ascii_of_string s))))).

Definition example_decode (base64 : string) : Settled string :=
  Resolved base64.

Definition example_pcmToWavBlob (bytes : string) (rate channels depth : Z)
  : string := "RIFF" +:+ bytes.

Definition example_createObjectURL (blob : string) : string :=
  "blob:" +:+ blob.

Definition example_env : Env := {| API_KEY := Some "key" |}.

(** A plain-text file whose name ends in [.docx]. *)
Definition misnamed_file : File :=
  {| name := "notas.docx"; type := "text/plain" |}.

Definition docx_read : ReadOutcome :=
  {| loaded := true; pdf := None; docx := Some "hola" |}.

(** The panel after an earlier synthesis that succeeded. *)
Definition after_success : State :=
  mkState "hola" (Some "blob:RIFFold") false None [GenerateContent "hola"; CreateObjectURL].

Definition empty_response : GenerateContentResponse :=
  {| candidates := Some [] |}.

Definition audio_response : GenerateContentResponse :=
  {| candidates :=
       Some [ {| content :=
                   Some {| parts :=
                             Some [ {| inlineData :=
                                         Some {| data := Some "AAAA" |} |} ]
                        |} |} ] |}.

(** *** The rest of the component *)

(** [onChange] of the text area. *)
Definition handleTextChange (value : string) : M State unit := setText value.

(** The panel mounted anew: fresh [useState] cells; the calls that were
    made remain. *)
Definition mount (s : State) : State := mkState "" None false None (log s).

(** The text of a PDF whose pages hold the given text items: the items of
    a page joined by one space, the pages one after another with nothing in
    between. *)
Definition pdf_text (pages : list (list string)) : string :=
  String.concat "" (map (join " ") pages).

(** The pages read before the first one that fails. *)
Fixpoint readable_prefix (pages : list (option (list string)))
  : list (list string) :=
  match pages with
  | Some items :: pages' => items :: readable_prefix pages'
  | _ => []
  end.

Definition is_GenerateContent (e : Effect) : bool :=
  match e with GenerateContent _ => true | _ => false end.

Definition is_CreateObjectURL (e : Effect) : bool :=
  match e with CreateObjectURL => true | _ => false end.

Definition calls (p : Effect -> bool) (l : list Effect) : nat :=
  length (List.filter p l).
Arguments calls : simpl never.

(** The texts sent to the synthesis service, in the order of the log. *)
Definition synthesized (l : list Effect) : list string :=
  omap (fun e => match e with GenerateContent t => Some t | _ => None end) l.

(** Everything that can happen to the panel. *)
Inductive Op :=
| TextChange (value : string)
| FileChange (file : option File) (outcome : ReadOutcome)
| GenerateAudio (service : Settled GenerateContentResponse).

Section Runs.

Context {Uint8Array Blob : Type}.
Variable trim : string -> string.
Variable decode : string -> Settled Uint8Array.
Variable pcmToWavBlob : Uint8Array -> Z -> Z -> Z -> Blob.
Variable createObjectURL : Blob -> string.

Definition step (env : Env) (s : State) (op : Op) : State :=
  match op with
  | TextChange value => exec (handleTextChange value) s
  | FileChange file outcome => exec (handleFileChange file outcome) s
  | GenerateAudio service =>
      exec (handleGenerateAudio trim decode pcmToWavBlob createObjectURL
              env service) s
  end.

Definition run (env : Env) (ops : list Op) (s : State) : State :=
  foldl (step env) s ops.

End Runs.

Definition no_credential : Env := {| API_KEY := None |}.

Definition example_pdf : File :=
  {| name := "acta.pdf"; type := "application/pdf" |}.

Definition two_pages : list (list string) :=
  [["Primera"; "audiencia"]; ["Segunda"; "audiencia"]].

End TextToSpeechPanel.

(** ** The application shell: the two tabs *)

Module App.

Inductive AppMode := TRANSCRIPTION | TTS.

(** The mode and the two panels.  Only the panel of the current mode is
    mounted; the other one is kept as it will be when mounted again. *)
Record State := mkApp {
  mode : AppMode;
  transcriptionPanel : TranscriptionPanel.State;
  textToSpeechPanel : TextToSpeechPanel.State
}.

Definition initial : State :=
  mkApp TRANSCRIPTION TranscriptionPanel.initial TextToSpeechPanel.initial.




End App.

(** ** Properties of the transcription panel *)

Module TranscriptionPanelSpec.

Import TranscriptionPanel.

Ltac handler :=
  cbv [exec bind ret get when onopen onerror onclose onmessage startSession
       stopSession setIsRecording setIsProcessing setTranscription setError
       setSessionPromiseRef setAudioContextRef setMediaStreamRef
       setScriptProcessorRef setMediaStreamSourceRef setCurrentTranscription
       emit]; cbn.

(** A [PartialText] reaches the accumulator and the display. *)
Lemma onmessage_partial (s : State) (session : nat) (acc t : string) :
  currentTranscription s !! session = Some acc ->
  let s' := exec (onmessage session (message_of (PartialText t))) s in
  currentTranscription s' !! session = Some (acc +:+ t) /\
  transcription s' = acc +:+ t.
Proof.
  intros Hcell. destruct s. cbn in Hcell. handler. rewrite Hcell. cbn.
  split; [|reflexivity].
  apply list_lookup_insert_eq. eapply lookup_lt_Some, Hcell.
Qed.

(** A [TurnComplete] reaches the accumulator only. *)
Lemma onmessage_turn (s : State) (session : nat) (acc : string) :
  currentTranscription s !! session = Some acc ->
  let s' := exec (onmessage session (message_of TurnComplete)) s in
  currentTranscription s' !! session = Some (acc +:+ " ") /\
  transcription s' = transcription s.
Proof.
  intros Hcell. destruct s. cbn in Hcell. handler. rewrite Hcell. cbn.
  split; [|reflexivity].
  apply list_lookup_insert_eq. eapply lookup_lt_Some, Hcell.
Qed.

Lemma onmessage_event (s : State) (session : nat) (acc : string)
  (ev : TranscriptEvent) :
  currentTranscription s !! session = Some acc ->
  currentTranscription (exec (onmessage session (message_of ev)) s) !! session
  = Some (apply_event acc ev).
Proof.
  intros Hcell. destruct ev.
  - apply (onmessage_partial s session acc s0 Hcell).
  - apply (onmessage_turn s session acc Hcell).
Qed.

Lemma deliver_accumulates (evs : list TranscriptEvent) :
  forall (s : State) (session : nat) (acc : string),
  currentTranscription s !! session = Some acc ->
  currentTranscription (deliver session evs s) !! session
  = Some (foldl apply_event acc evs).
Proof.
  induction evs as [|ev evs IH]; intros s session acc Hcell; [exact Hcell|].
  cbn. apply IH. apply onmessage_event, Hcell.
Qed.

Lemma deliver_app (session : nat) (evs1 evs2 : list TranscriptEvent)
  (s : State) :
  deliver session (evs1 ++ evs2) s = deliver session evs2 (deliver session evs1 s).
Proof. unfold deliver. apply foldl_app. Qed.

(** The session that [startSession] opens starts from the empty
    transcript. *)
Lemma startSession_fresh (env : Env) (s : State) :
  truthy (API_KEY env) = true ->
  let session := length (currentTranscription s) in
  fst (startSession env s) = Some session /\
  currentTranscription (exec (startSession env) s) !! session = Some "" /\
  log (exec (startSession env) s) = log s ++ [LiveConnect session] /\
  sessionPromiseRef (exec (startSession env) s) = Some session.
Proof.
  intros Hkey. destruct s. handler. rewrite Hkey. cbn.
  repeat split. rewrite lookup_app_r by lia. rewrite Nat.sub_diag. reflexivity.
Qed.

(** C1. The running transcript of a session is the fold of the events in
    delivery order: from any running transcript, [PartialText s] appends [s]
    and [TurnComplete] appends one space; a session just started holds the
    empty transcript, so it holds [accumulate evs] after the events [evs],
    which is "ab" after a, b and "a b" after a, turn, b. *)
Theorem C1_transcript_is_fold_in_delivery_order :
  (forall (s : State) (session : nat) (acc : string)
          (evs : list TranscriptEvent),
     currentTranscription s !! session = Some acc ->
     currentTranscription (deliver session evs s) !! session
     = Some (foldl apply_event acc evs)) /\
  (forall (env : Env) (s : State) (evs : list TranscriptEvent),
     truthy (API_KEY env) = true ->
     let session := length (currentTranscription s) in
     currentTranscription (deliver session evs (exec (startSession env) s))
       !! session = Some (accumulate evs)) /\
  accumulate [PartialText "a"; PartialText "b"] = "ab" /\
  accumulate [PartialText "a"; TurnComplete; PartialText "b"] = "a b".
Proof.
  split; [|split; [|split; reflexivity]].
  - intros s session acc evs. apply deliver_accumulates.
  - intros env s evs Hkey session. apply deliver_accumulates.
    apply (startSession_fresh env s Hkey).
Qed.

Lemma C1_witness :
  let started := exec (startSession example_env) initial in
  let evs := [PartialText "a"; TurnComplete; PartialText "b"] in
  currentTranscription (deliver 0 evs started) !! 0%nat = Some "a b" /\
  currentTranscription (deliver 0 [PartialText "c"] (deliver 0 evs started))
    !! 0%nat = Some "a bc".
Proof.
  split.
  - exact (proj1 (proj2 C1_transcript_is_fold_in_delivery_order)
             example_env initial
             [PartialText "a"; TurnComplete; PartialText "b"] eq_refl).
  - exact (proj1 C1_transcript_is_fold_in_delivery_order
             (deliver 0 [PartialText "a"; TurnComplete; PartialText "b"]
                (exec (startSession example_env) initial))
             0%nat "a b" [PartialText "c"] eq_refl).
Defined.

Lemma deliver_cons (session : nat) (ev : TranscriptEvent)
  (evs : list TranscriptEvent) (s : State) :
  deliver session (ev :: evs) s
  = deliver session evs (exec (onmessage session (message_of ev)) s).
Proof. reflexivity. Qed.

(** The display after the events: what it showed before when no
    [PartialText] came, else the fold up to the last [PartialText]. *)
Lemma deliver_displays (evs : list TranscriptEvent) :
  forall (s : State) (session : nat) (acc : string),
  currentTranscription s !! session = Some acc ->
  transcription (deliver session evs s)
  = match up_to_last_partial evs with
    | [] => transcription s
    | shown => foldl apply_event acc shown
    end.
Proof.
  induction evs as [|ev evs IH]; intros s session acc Hcell; [reflexivity|].
  rewrite deliver_cons. destruct ev as [t|].
  - destruct (onmessage_partial s session acc t Hcell) as [Hcell' Hshow].
    rewrite (IH _ session _ Hcell'), Hshow. cbn.
    destruct (up_to_last_partial evs); reflexivity.
  - destruct (onmessage_turn s session acc Hcell) as [Hcell' Hshow].
    rewrite (IH _ session _ Hcell'), Hshow. cbn.
    destruct (up_to_last_partial evs); reflexivity.
Qed.

(** C10, as amended. A [TurnComplete] leaves the displayed transcript as it
    was; when the display agrees with the accumulator at the start, the
    display after any events is the fold of the events up to the last
    [PartialText] (every trailing separator is hidden, not only the last
    one); a separator shows as soon as a later [PartialText] arrives. *)
Theorem C10_display_hides_trailing_separators :
  (forall (s : State) (session : nat),
     transcription (exec (onmessage session (message_of TurnComplete)) s)
     = transcription s) /\
  (forall (s : State) (session : nat) (acc : string)
          (evs : list TranscriptEvent),
     currentTranscription s !! session = Some acc ->
     transcription s = acc ->
     transcription (deliver session evs s)
     = foldl apply_event acc (up_to_last_partial evs)) /\
  (forall (s : State) (session : nat) (acc t : string)
          (evs : list TranscriptEvent),
     currentTranscription s !! session = Some acc ->
     transcription (deliver session (evs ++ [TurnComplete; PartialText t]) s)
     = (foldl apply_event acc evs +:+ " ") +:+ t).
Proof.
  split; [|split].
  - intros s session. destruct s. handler.
    destruct (_ !! _); reflexivity.
  - intros s session acc evs Hcell Hshow.
    rewrite (deliver_displays evs s session acc Hcell), Hshow.
    destruct (up_to_last_partial evs); reflexivity.
  - intros s session acc t evs Hcell.
    replace (evs ++ [TurnComplete; PartialText t])
      with ((evs ++ [TurnComplete]) ++ [PartialText t])
      by (rewrite <- app_assoc; reflexivity).
    rewrite deliver_app. unfold deliver at 1. cbn [foldl].
    pose proof (deliver_accumulates (evs ++ [TurnComplete]) s session acc Hcell)
      as Hacc.
    rewrite foldl_app in Hacc. cbn in Hacc.
    apply (proj2 (onmessage_partial _ session _ t Hacc)).
Qed.

Lemma C10_witness :
  transcription
    (deliver 0 [PartialText "a"; TurnComplete; TurnComplete]
       (exec (startSession example_env) initial)) = "a" /\
  transcription
    (deliver 0 ([PartialText "a"] ++ [TurnComplete; PartialText "b"])
       (exec (startSession example_env) initial)) = "a b".
Proof.
  split.
  - exact (proj1 (proj2 C10_display_hides_trailing_separators)
             (exec (startSession example_env) initial) 0%nat ""
             [PartialText "a"; TurnComplete; TurnComplete] eq_refl eq_refl).
  - exact (proj2 (proj2 C10_display_hides_trailing_separators)
             (exec (startSession example_env) initial) 0%nat "" "b"
             [PartialText "a"] eq_refl).
Defined.

(** C10 as stated fails: after a, turn, turn the display is "a", while the
    fold of the sequence without its trailing separator is "a ". *)
Lemma C10_counterexample :
  let s0 := exec (startSession example_env) initial in
  let evs := [PartialText "a"; TurnComplete] in
  transcription (deliver 0 (evs ++ [TurnComplete]) s0) = "a" /\
  accumulate evs = "a " /\
  transcription (deliver 0 (evs ++ [TurnComplete]) s0) <> accumulate evs.
Proof. cbn. repeat split. discriminate. Qed.

(** C7. A session error sets the message, forces both flags to false
    whatever they were, and calls nothing: no new connect is made. *)
Theorem C7_session_error_terminates (s : State) :
  let s' := exec onerror s in
  error s' = Some "Error en la sesión de transcripción. Intente de nuevo." /\
  isRecording s' = false /\
  isProcessing s' = false /\
  log s' = log s /\
  sessionPromiseRef s' = sessionPromiseRef s /\
  transcription s' = transcription s.
Proof. destruct s. handler. repeat split. Qed.

Lemma forEach_emit {A} (f : A -> Effect) (l : list A) (s : State) :
  forEach (fun x => emit (f x)) l s = emitAll (map f l) s.
Proof.
  revert s. induction l as [|x l IH]; intros s.
  - destruct s. cbv [forEach ret emitAll]. cbn. rewrite app_nil_r. reflexivity.
  - cbn [forEach]. unfold bind at 1. cbv [emit]. rewrite IH.
    cbv [emitAll]. cbn. rewrite <- app_assoc. reflexivity.
Qed.

(** What [stopRecording] does, in one step. *)
Lemma stopRecording_spec (s : State) :
  exec stopRecording s
  = mkState false (isProcessing s) (transcription s) (error s)
      None None None None None (currentTranscription s)
      (log s ++ released s).
Proof.
  destruct s as [rec proc tr err ses ctx stream node source cells l].
  unfold released, stopRecording, exec. cbn [sessionPromiseRef mediaStreamRef
    scriptProcessorRef mediaStreamSourceRef audioContextRef].
  destruct ses as [session|]; handler.
  all: match goal with
       | |- context [forEach _ ?tracks ?st] =>
           pose proof (forEach_emit TrackStop tracks st) as Htracks;
           cbv [emit] in Htracks; rewrite Htracks; clear Htracks
       end.
  all: cbv [emitAll]; cbn.
  all: destruct node, source, ctx as [[]|]; cbn.
  all: rewrite <- ?app_assoc; cbn; rewrite ?app_nil_r; reflexivity.
Qed.

(** C6. Stopping twice leaves the state of stopping once, log of calls
    included, so the second stop releases nothing; stopping sets no error;
    the first stop clears the session reference and asks for at most one
    session close. *)
Theorem C6_stopRecording_idempotent (s : State) :
  let once := exec stopRecording s in
  let twice := exec stopRecording once in
  twice = once /\
  log twice = log once /\
  error once = error s /\
  sessionPromiseRef once = None /\
  log once = log s ++ released s /\
  (calls is_SessionClose (released s) <= 1)%nat /\
  calls is_SessionClose (log twice) = calls is_SessionClose (log once).
Proof.
  cbn zeta. rewrite !stopRecording_spec. cbn.
  rewrite app_nil_r. repeat split.
  unfold released, calls. destruct (sessionPromiseRef s); cbn.
  all: rewrite ?List.filter_app, ?length_app; cbn.
  all: assert (Htracks : forall l, List.filter is_SessionClose (map TrackStop l) = [])
         by (induction l; auto).
  all: rewrite Htracks; cbn.
  all: destruct (scriptProcessorRef s), (mediaStreamSourceRef s),
         (audioContextRef s) as [[]|]; cbn; lia.
Qed.

(** *** Starting an operation *)

Lemma calls_app (p : Effect -> bool) (l1 l2 : list Effect) :
  calls p (l1 ++ l2) = (calls p l1 + calls p l2)%nat.
Proof. unfold calls. rewrite List.filter_app, length_app. reflexivity. Qed.

Lemma released_no_connect (s : State) : calls is_LiveConnect (released s) = 0%nat.
Proof.
  unfold released. rewrite !calls_app.
  assert (Htracks : forall l, calls is_LiveConnect (map TrackStop l) = 0%nat)
    by (induction l; auto).
  rewrite Htracks.
  destruct (sessionPromiseRef s), (scriptProcessorRef s),
    (mediaStreamSourceRef s), (audioContextRef s) as [[]|]; reflexivity.
Qed.

(** A start while the recording flag is set does nothing. *)
Lemma startRecording_ignored (env : Env) (mic : option MediaStream)
  (s : State) :
  isRecording s = true -> exec (startRecording env mic) s = s.
Proof.
  intros Hrec. destruct s. cbn in Hrec. subst.
  unfold startRecording. handler. reflexivity.
Qed.

(** A start without a credential. *)
Lemma startRecording_no_credential (env : Env) (mic : option MediaStream)
  (s : State) :
  truthy (API_KEY env) = false ->
  isRecording s = false ->
  exec (startRecording env mic) s
  = mkState false (isProcessing s) ""
      (Some "API_KEY environment variable not set.")
      (sessionPromiseRef s) (audioContextRef s) (mediaStreamRef s)
      (scriptProcessorRef s) (mediaStreamSourceRef s)
      (currentTranscription s) (log s).
Proof.
  intros Hkey Hrec. destruct s. cbn in Hrec. subst.
  unfold startRecording. handler. rewrite Hkey. reflexivity.
Qed.

(** A start with a credential, by what the microphone request delivers. *)
Lemma startRecording_started (env : Env) (mic : option MediaStream)
  (s : State) :
  truthy (API_KEY env) = true ->
  isRecording s = false ->
  let session := length (currentTranscription s) in
  exec (startRecording env mic) s
  = match mic with
    | Some stream =>
        mkState true (isProcessing s) "" None
          (Some session) (Some running) (Some stream) (Some session)
          (Some tt) (currentTranscription s ++ [""])
          (log s ++ [LiveConnect session; GetUserMedia])
    | None =>
        mkState false (isProcessing s) ""
          (Some "No se pudo acceder al micrófono. Por favor, verifique los permisos.")
          None (audioContextRef s) (mediaStreamRef s)
          (scriptProcessorRef s) (mediaStreamSourceRef s)
          (currentTranscription s ++ [""])
          (log s ++ [LiveConnect session; GetUserMedia; SessionClose session])
    end.
Proof.
  intros Hkey Hrec. destruct s. cbn in Hrec. subst.
  unfold startRecording. handler. rewrite Hkey. cbn.
  destruct mic; cbn; rewrite <- ?app_assoc; reflexivity.
Qed.

Section Operations.

Context {sample : Type}.
Variable float32ArrayToPCM16Base64 : list sample -> string.
Variable resampleAudioBuffer : AudioBuffer sample -> Z -> AudioBuffer sample.

Local Abbreviation run :=
  (run float32ArrayToPCM16Base64 resampleAudioBuffer).
Local Abbreviation step :=
  (step float32ArrayToPCM16Base64 resampleAudioBuffer).
Local Abbreviation handleFileUpload :=
  (handleFileUpload float32ArrayToPCM16Base64 resampleAudioBuffer).

(** An upload without a credential. *)
Lemma handleFileUpload_no_credential (env : Env) (file : File)
  (outcome : UploadOutcome) (s : State) :
  truthy (API_KEY env) = false ->
  exec (handleFileUpload env (Some file) outcome) s
  = mkState (isRecording s) false ""
      (Some "API_KEY environment variable not set.")
      (sessionPromiseRef s) (audioContextRef s) (mediaStreamRef s)
      (scriptProcessorRef s) (mediaStreamSourceRef s)
      (currentTranscription s) (log s).
Proof.
  intros Hkey. destruct s.
  unfold TranscriptionPanel.handleFileUpload. handler. rewrite Hkey.
  reflexivity.
Qed.

(** Without a credential no operation sets the recording flag or connects. *)
Lemma step_no_credential (env : Env) (op : Op) (s : State) :
  truthy (API_KEY env) = false ->
  isRecording s = false /\ calls is_LiveConnect (log s) = 0%nat ->
  isRecording (step env s op) = false /\
  calls is_LiveConnect (log (step env s op)) = 0%nat.
Proof.
  intros Hkey [Hrec Hlog]. destruct op; cbn [TranscriptionPanel.step].
  - rewrite startRecording_no_credential by assumption. cbn. auto.
  - rewrite stopRecording_spec. cbn [isRecording log].
    rewrite calls_app, released_no_connect, Hlog. auto.
  - destruct s. cbn in *. unfold onaudioprocess. handler.
    destruct scriptProcessorRef0; cbn; [|auto].
    rewrite calls_app, Hlog. auto.
  - destruct file as [file|]; [|cbn; auto].
    rewrite handleFileUpload_no_credential by assumption. cbn. auto.
  - destruct s. cbn in *. unfold handleFileUpload_timeout. handler.
    destruct sessionPromiseRef0; cbn; [|auto].
    rewrite calls_app, Hlog. auto.
  - destruct s. cbn in *. handler. auto.
  - destruct s. cbn in *. handler.
    destruct message as [[[[tr|] [[]|]]|]]; cbn;
      repeat (destruct (_ !! _); cbn); auto.
  - destruct s. cbn in *. handler. auto.
  - destruct s. cbn in *. handler. auto.
Qed.

Lemma run_no_credential (env : Env) (ops : list Op) :
  truthy (API_KEY env) = false ->
  forall s : State,
  isRecording s = false /\ calls is_LiveConnect (log s) = 0%nat ->
  isRecording (run env ops s) = false /\
  calls is_LiveConnect (log (run env ops s)) = 0%nat.
Proof.
  intros Hkey. induction ops as [|op ops IH]; intros s Hs; [exact Hs|].
  cbn. apply IH. apply step_no_credential; assumption.
Qed.

(** C3. Without a credential: whatever happened to the panel before, it is
    not recording and has made no connect call; a start of a recording from
    there, and a start of an upload from any state, surface the configuration
    error, leave the flag of the operation false and call nothing (the log
    of calls and the session reference are as before). *)
Theorem C3_missing_credential_fails_without_connect (env : Env) :
  truthy (API_KEY env) = false ->
  (forall ops : list Op,
     isRecording (run env ops initial) = false /\
     calls is_LiveConnect (log (run env ops initial)) = 0%nat) /\
  (forall (s : State) (mic : option MediaStream),
     isRecording s = false ->
     let s' := exec (startRecording env mic) s in
     error s' = Some "API_KEY environment variable not set." /\
     isRecording s' = false /\
     log s' = log s /\
     sessionPromiseRef s' = sessionPromiseRef s) /\
  (forall (s : State) (file : File) (outcome : UploadOutcome),
     let s' := exec (handleFileUpload env (Some file) outcome) s in
     error s' = Some "API_KEY environment variable not set." /\
     isProcessing s' = false /\
     log s' = log s /\
     sessionPromiseRef s' = sessionPromiseRef s).
Proof.
  intros Hkey. split; [|split].
  - intros ops. apply run_no_credential; [assumption|]. split; reflexivity.
  - intros s mic Hrec. cbn zeta.
    rewrite startRecording_no_credential by assumption. repeat split.
  - intros s file outcome. cbn zeta.
    rewrite handleFileUpload_no_credential by assumption. repeat split.
Qed.

Lemma open_sessions_app (l1 l2 : list Effect) :
  open_sessions (l1 ++ l2) = foldl session_step (open_sessions l1) l2.
Proof. unfold open_sessions. apply foldl_app. Qed.

Lemma startRecording_one_session (env : Env) (mic : option MediaStream)
  (s : State) :
  one_session s -> one_session (exec (startRecording env mic) s).
Proof.
  intros [Hopen Hidle].
  destruct (isRecording s) eqn:Hrec.
  { rewrite startRecording_ignored by assumption.
    split; [assumption | congruence]. }
  specialize (Hidle eq_refl). rewrite Hidle in Hopen.
  destruct (truthy (API_KEY env)) eqn:Hkey.
  - rewrite startRecording_started by assumption.
    destruct mic as [stream|]; split; cbn [log sessionPromiseRef isRecording];
      try discriminate; try reflexivity.
    + rewrite open_sessions_app, Hopen. reflexivity.
    + rewrite open_sessions_app, Hopen. cbn.
      destruct (decide _) as [Hne|_]; [|reflexivity].
      exfalso. apply Hne. reflexivity.
  - rewrite startRecording_no_credential by assumption.
    split; cbn [log sessionPromiseRef isRecording]; [|auto].
    rewrite Hopen, Hidle. reflexivity.
Qed.

Lemma starts_one_session (env : Env) (mics : list (option MediaStream)) :
  forall s : State,
  one_session s -> one_session (run env (map StartRecording mics) s).
Proof.
  induction mics as [|mic mics IH]; intros s Hs; [exact Hs|].
  cbn. apply IH. apply startRecording_one_session, Hs.
Qed.

(** C5, as amended. After any sequence of start-recording invocations at most
    one session is open, and it is the one the session reference holds; a
    start invoked while the panel is recording is ignored: the state and
    the log of calls stay the same, so the first session is neither closed
    nor joined by a second one. *)
Theorem C5_second_start_is_ignored (env : Env)
  (mics : list (option MediaStream)) :
  let s := run env (map StartRecording mics) initial in
  (length (open_sessions (log s)) <= 1)%nat /\
  open_sessions (log s) = option_list (sessionPromiseRef s) /\
  (forall mic : option MediaStream,
     isRecording s = true ->
     exec (startRecording env mic) s = s).
Proof.
  cbn zeta.
  destruct (starts_one_session env mics initial) as [Hopen _].
  { split; reflexivity. }
  split; [|split].
  - rewrite Hopen. destruct (sessionPromiseRef _); cbn; lia.
  - exact Hopen.
  - intros mic Hrec. apply startRecording_ignored, Hrec.
Qed.

(** An upload whose file cannot be decoded. *)
Lemma handleFileUpload_decode_fails (env : Env) (file : File)
  (outcome : UploadOutcome) (s : State) :
  truthy (API_KEY env) = true ->
  decoded outcome = None ->
  let session := length (currentTranscription s) in
  exec (handleFileUpload env (Some file) outcome) s
  = mkState (isRecording s) false ""
      (Some "Error al procesar el archivo de audio.")
      None (audioContextRef s) (mediaStreamRef s)
      (scriptProcessorRef s) (mediaStreamSourceRef s)
      (currentTranscription s ++ [""])
      (log s ++ [LiveConnect session; DecodeAudioData; SessionClose session]).
Proof.
  intros Hkey Hdecode. destruct s.
  unfold TranscriptionPanel.handleFileUpload. handler. rewrite Hkey. cbn.
  rewrite Hdecode. unfold handleFileUpload_catch. handler.
  rewrite <- !app_assoc. reflexivity.
Qed.

(** C2, as amended. With a credential, when the uploaded file cannot be
    decoded the upload surfaces the decode error and clears the processing
    flag; the session was started before the decoding (one connect call),
    no audio is sent to it, and it is closed again and the session reference
    cleared. *)
Theorem C2_decode_failure_closes_the_started_session (env : Env)
  (file : File) (outcome : UploadOutcome) (s : State) :
  truthy (API_KEY env) = true ->
  decoded outcome = None ->
  let session := length (currentTranscription s) in
  let s' := exec (handleFileUpload env (Some file) outcome) s in
  error s' = Some "Error al procesar el archivo de audio." /\
  isProcessing s' = false /\
  sessionPromiseRef s' = None /\
  log s' = log s ++ [LiveConnect session; DecodeAudioData; SessionClose session] /\
  calls is_LiveConnect (log s') = S (calls is_LiveConnect (log s)) /\
  calls is_SendRealtimeInput (log s') = calls is_SendRealtimeInput (log s).
Proof.
  intros Hkey Hdecode. cbn zeta.
  rewrite handleFileUpload_decode_fails by assumption.
  cbn [error isProcessing sessionPromiseRef log].
  rewrite !calls_app. repeat split.
  - change (calls is_LiveConnect [_; _; _]) with 1%nat. lia.
  - change (calls is_SendRealtimeInput [_; _; _]) with 0%nat. lia.
Qed.

(** *** The chunk loop *)

Lemma ceil_div_lt (n c k : nat) :
  (0 < c)%nat -> (k < ceil_div n c)%nat <-> (k * c < n)%nat.
Proof.
  intros Hc. unfold ceil_div. split; intros H.
  - assert (c * (S k) <= n + (c - 1))%nat; [|nia].
    etransitivity; [|apply (Nat.Div0.mul_div_le _ c)].
    apply Nat.mul_le_mono_l. lia.
  - apply (Nat.div_le_lower_bound _ c (S k)); nia.
Qed.

(** [ceil_div n c] is the least number of blocks of [c] that cover [n]. *)
Lemma ceil_div_ceiling (n c : nat) :
  (0 < c)%nat ->
  (n <= ceil_div n c * c < n + c)%nat.
Proof.
  intros Hc. split.
  - destruct (Nat.le_gt_cases n (ceil_div n c * c)) as [|Hlt]; [assumption|].
    apply ceil_div_lt in Hlt; [lia | assumption].
  - destruct (ceil_div n c) as [|k] eqn:HK; [lia|].
    assert (Hk : (k < ceil_div n c)%nat) by lia.
    apply ceil_div_lt in Hk; [nia | assumption].
Qed.

Lemma slice_length (i c : nat) (a : list sample) :
  length (slice i (i + c) a) = (c `min` (length a - i))%nat.
Proof.
  unfold slice. rewrite length_take, length_drop.
  replace (i + c - i)%nat with c by lia. reflexivity.
Qed.

Lemma slice_then_rest (i c : nat) (a : list sample) :
  slice i (i + c) a ++ drop (i + c) a = drop i a.
Proof.
  unfold slice. replace (i + c - i)%nat with c by lia.
  replace (drop (i + c) a) with (drop c (drop i a))
    by (rewrite drop_drop; f_equal; lia).
  apply take_drop.
Qed.

Lemma emitAll_nil (s : State) : emitAll [] s = (tt, s).
Proof. destruct s. cbv [emitAll]. cbn. rewrite app_nil_r. reflexivity. Qed.

Lemma sendChunks_emits (session : nat) (audioData : list sample) (m : nat) :
  forall (k : nat) (s : State),
  m = (ceil_div (length audioData) chunkSize - k)%nat ->
  sendChunks float32ArrayToPCM16Base64 session audioData (k * chunkSize) s
  = emitAll
      (flat_map
         (fun chunk =>
            [SendRealtimeInput session
               (createGenAIBlob float32ArrayToPCM16Base64 chunk);
             Delay 50])
         (map (fun j => slice (j * chunkSize) (j * chunkSize + chunkSize) audioData)
            (seq k m))) s.
Proof.
  assert (Hc : (0 < chunkSize)%nat) by (unfold chunkSize; lia).
  induction m as [|m IH]; intros k s Hm.
  - rewrite sendChunks_equation_1.
    destruct (decide _) as [Hlt|Hge].
    + pose proof (proj2 (ceil_div_lt _ _ _ Hc) Hlt). lia.
    + cbn. rewrite emitAll_nil. reflexivity.
  - rewrite sendChunks_equation_1.
    destruct (decide _) as [Hlt|Hge].
    + cbn.
      pose proof (slice_length (k * chunkSize) chunkSize audioData) as Hlen.
      destruct (length (slice _ _ audioData)) eqn:Hchunk; [lia|].
      replace (k * chunkSize + chunkSize)%nat with (S k * chunkSize)%nat by lia.
      cbv [when bind emit]. rewrite (IH (S k)) by lia.
      cbv [emitAll]. cbn. rewrite <- !app_assoc. reflexivity.
    + exfalso. apply Hge. apply ceil_div_lt; [assumption | lia].
Qed.

Lemma chunks_concat (audioData : list sample) (c m : nat) :
  (0 < c)%nat ->
  forall k : nat,
  m = (ceil_div (length audioData) c - k)%nat ->
  concat (map (fun j => slice (j * c) (j * c + c) audioData) (seq k m))
  = drop (k * c) audioData.
Proof.
  intros Hc. induction m as [|m IH]; intros k Hm.
  - cbn. symmetry. apply drop_ge.
    destruct (Nat.le_gt_cases (length audioData) (k * c)) as [|Hlt];
      [assumption|].
    apply ceil_div_lt in Hlt; [lia | assumption].
  - cbn. rewrite (IH (S k)) by lia.
    replace (S k * c)%nat with (k * c + c)%nat by lia.
    apply slice_then_rest.
Qed.

(** An upload that is decoded and whose session opens. *)
Lemma handleFileUpload_sends (env : Env) (file : File)
  (outcome : UploadOutcome) (buffer : AudioBuffer sample) (s : State) :
  truthy (API_KEY env) = true ->
  decoded outcome = Some buffer ->
  sessionOpened outcome = true ->
  let audioData := channelData0 (resampleAudioBuffer buffer TARGET_SAMPLE_RATE) in
  let session := length (currentTranscription s) in
  log (exec (handleFileUpload env (Some file) outcome) s)
  = log s ++ [LiveConnect session; DecodeAudioData; TempAudioContextClose] ++
    flat_map
      (fun chunk =>
         [SendRealtimeInput session
            (createGenAIBlob float32ArrayToPCM16Base64 chunk);
          Delay 50])
      (chunks_in_order chunkSize audioData) ++
    [SetTimeout 2000].
Proof.
  intros Hkey Hdecode Hopen. destruct s.
  unfold TranscriptionPanel.handleFileUpload. handler. rewrite Hkey. cbn.
  rewrite Hdecode, Hopen. cbv [bind].
  change 0%nat with (0 * chunkSize)%nat at 1.
  rewrite (sendChunks_emits _ _ (ceil_div (length
    (channelData0 (resampleAudioBuffer buffer TARGET_SAMPLE_RATE))) chunkSize)
    0%nat) by lia.
  cbv [emitAll emit chunks_in_order]. cbn [log snd].
  rewrite <- !app_assoc. reflexivity.
Qed.

(** C4. On the upload path with a credential, a decodable file and a session
    that opens, the calls are: the connect, the decoding, then for each
    chunk in order one send followed by one 50 ms delay, then the settling
    timer.  The chunks are the consecutive slices of 4096 samples of the
    resampled buffer: there are ceil(n/4096) of them, none empty, none longer
    than 4096, and their concatenation is the buffer. *)
Theorem C4_upload_sends_consecutive_chunks (env : Env) (file : File)
  (outcome : UploadOutcome) (buffer : AudioBuffer sample) (s : State) :
  truthy (API_KEY env) = true ->
  decoded outcome = Some buffer ->
  sessionOpened outcome = true ->
  let audioData := channelData0 (resampleAudioBuffer buffer TARGET_SAMPLE_RATE) in
  let chunks := chunks_in_order 4096 audioData in
  let session := length (currentTranscription s) in
  log (exec (handleFileUpload env (Some file) outcome) s)
  = log s ++ [LiveConnect session; DecodeAudioData; TempAudioContextClose] ++
    flat_map
      (fun chunk =>
         [SendRealtimeInput session
            (createGenAIBlob float32ArrayToPCM16Base64 chunk);
          Delay 50])
      chunks ++
    [SetTimeout 2000] /\
  length chunks = ceil_div (length audioData) 4096 /\
  (length audioData <= 4096 * length chunks < length audioData + 4096)%nat /\
  (forall (k : nat) (chunk : list sample),
     chunks !! k = Some chunk ->
     chunk = slice (k * 4096) (k * 4096 + 4096) audioData /\
     (0 < length chunk <= 4096)%nat) /\
  concat chunks = audioData.
Proof.
  intros Hkey Hdecode Hopen audioData chunks session.
  assert (Hc : (0 < 4096)%nat) by lia.
  assert (Hcount : length chunks = ceil_div (length audioData) 4096).
  { unfold chunks, chunks_in_order. rewrite length_map, length_seq.
    reflexivity. }
  split; [|split; [|split; [|split]]].
  - apply (handleFileUpload_sends env file outcome buffer s Hkey Hdecode Hopen).
  - exact Hcount.
  - rewrite Hcount.
    pose proof (ceil_div_ceiling (length audioData) 4096 Hc). lia.
  - intros k chunk Hk. unfold chunks, chunks_in_order in Hk.
    rewrite list_lookup_fmap in Hk.
    destruct (seq 0 _ !! k) as [j|] eqn:Hj; [|discriminate].
    apply lookup_seq in Hj as [-> Hlt]. cbn in Hk.
    injection Hk as <-. split; [reflexivity|].
    rewrite slice_length.
    apply ceil_div_lt in Hlt; [lia | assumption].
  - unfold chunks, chunks_in_order.
    rewrite (chunks_concat audioData 4096
               (ceil_div (length audioData) 4096) Hc 0%nat) by lia.
    reflexivity.
Qed.

End Operations.


Lemma C3_witness :
  let s' := exec (startRecording no_credential (Some [0%nat])) initial in
  error s' = Some "API_KEY environment variable not set." /\
  isRecording s' = false /\
  log s' = [] /\
  sessionPromiseRef s' = None.
Proof.
  exact (proj1 (proj2
    (C3_missing_credential_fails_without_connect
       example_encoder example_resampler no_credential eq_refl))
    initial (Some [0%nat]) eq_refl).
Defined.

Lemma C5_witness :
  let s := run example_encoder example_resampler example_env
             (map StartRecording [Some [0%nat]]) initial in
  isRecording s = true /\
  exec (startRecording example_env (Some [1%nat])) s = s.
Proof.
  cbn zeta. split; [vm_compute; reflexivity|].
  apply (proj2 (proj2
    (C5_second_start_is_ignored example_encoder example_resampler
       example_env [Some [0%nat]]))
    (Some [1%nat])).
  vm_compute. reflexivity.
Defined.

(** C5 as stated fails: a second start during a recording closes nothing
    and opens nothing. *)
Lemma C5_counterexample :
  let s1 := exec (startRecording example_env (Some [0%nat])) initial in
  let s2 := exec (startRecording example_env (Some [1%nat])) s1 in
  isRecording s1 = true /\
  open_sessions (log s1) = [0%nat] /\
  log s2 = [LiveConnect 0; GetUserMedia] /\
  calls is_SessionClose (log s2) = 0%nat /\
  calls is_LiveConnect (log s2) = 1%nat.
Proof. repeat split. Qed.

(** Outside the sequences of C5: an upload started during a recording
    opens a second session next to the first; the later stops close the
    second one only, the first is left open. *)
Lemma upload_during_recording_opens_a_second_session :
  let s := run example_encoder example_resampler example_env
             [StartRecording (Some [0%nat]);
              FileUpload (Some example_file) one_second_upload] initial in
  let s' := run example_encoder example_resampler example_env
              [FileUploadTimeout; StopRecording] s in
  open_sessions (log s) = [0%nat; 1%nat] /\
  open_sessions (log s') = [0%nat] /\
  sessionPromiseRef s' = None.
Proof. vm_compute. repeat split. Qed.

Lemma C4_witness :
  log (exec (handleFileUpload example_encoder example_resampler example_env
               (Some example_file) one_second_upload) initial)
  = [LiveConnect 0; DecodeAudioData; TempAudioContextClose;
     SendRealtimeInput 0 {| data := "4096"; mimeType := "audio/pcm;rate=16000" |};
     Delay 50;
     SendRealtimeInput 0 {| data := "4096"; mimeType := "audio/pcm;rate=16000" |};
     Delay 50;
     SendRealtimeInput 0 {| data := "4096"; mimeType := "audio/pcm;rate=16000" |};
     Delay 50;
     SendRealtimeInput 0 {| data := "3712"; mimeType := "audio/pcm;rate=16000" |};
     Delay 50;
     SetTimeout 2000] /\
  length (chunks_in_order 4096
            (channelData0
               (example_resampler one_second_buffer TARGET_SAMPLE_RATE)))
  = 4%nat /\
  (0 < length (repeat 0%Z 3712) <= 4096)%nat.
Proof.
  pose proof (C4_upload_sends_consecutive_chunks example_encoder
                example_resampler example_env example_file
                one_second_upload one_second_buffer initial
                eq_refl eq_refl eq_refl) as (Hlog & Hcount & _ & Hslices & _).
  split; [|split].
  - rewrite Hlog. vm_compute. reflexivity.
  - rewrite Hcount. vm_compute. reflexivity.
  - refine (proj2 (Hslices 3%nat (repeat 0%Z 3712) _)).
    vm_compute. reflexivity.
Defined.

Lemma C2_witness :
  let s' := exec (handleFileUpload example_encoder example_resampler
                    example_env (Some example_file) undecodable) initial in
  error s' = Some "Error al procesar el archivo de audio." /\
  isProcessing s' = false /\
  sessionPromiseRef s' = None /\
  log s' = [LiveConnect 0; DecodeAudioData; SessionClose 0] /\
  calls is_LiveConnect (log s') = 1%nat /\
  calls is_SendRealtimeInput (log s') = 0%nat.
Proof.
  exact (C2_decode_failure_closes_the_started_session
           example_encoder example_resampler example_env example_file
           undecodable initial eq_refl eq_refl).
Defined.

(** C2 as stated fails: when the decoding fails, the connect call has
    already been made. *)
Lemma C2_counterexample :
  let s' := exec (handleFileUpload example_encoder example_resampler
                    example_env (Some example_file) undecodable) initial in
  error s' = Some "Error al procesar el archivo de audio." /\
  calls is_LiveConnect (log s') = 1%nat /\
  calls is_LiveConnect (log s') <> 0%nat.
Proof. repeat split. discriminate. Qed.

End TranscriptionPanelSpec.

(** ** Properties of the text-to-speech panel *)

Module TextToSpeechPanelSpec.

Import GeminiService TextToSpeechPanel.

Ltac handler :=
  cbv [exec bind ret get when handleFileChange handleGenerateAudio
       handleGenerateAudio_begin handleGenerateAudio_try pdf_onload
       docx_onload setText setAudioUrl setIsLoading setError emit]; cbn.

(** C8, as amended. A document whose MIME type is not [application/pdf] and
    whose name does not end in [.docx] is rejected with the unsupported-type
    message, the text field is cleared, and nothing is read or extracted:
    the log of calls is as before. *)
Theorem C8_unsupported_document_is_rejected (file : File)
  (outcome : ReadOutcome) (s : State) :
  type file <> "application/pdf" ->
  endsWith (name file) ".docx" = false ->
  let s' := exec (handleFileChange (Some file) outcome) s in
  error s'
  = Some "Tipo de archivo no soportado. Por favor, suba un PDF o DOCX." /\
  text s' = "" /\
  isLoading s' = false /\
  audioUrl s' = None /\
  log s' = log s.
Proof.
  intros Hpdf Hdocx. apply String.eqb_neq in Hpdf.
  destruct s. handler. rewrite Hpdf, Hdocx. cbn. repeat split.
Qed.

Lemma C8_witness :
  let file := {| name := "acta.txt"; type := "text/plain" |} in
  let s' := exec (handleFileChange (Some file) docx_read) after_success in
  error s'
  = Some "Tipo de archivo no soportado. Por favor, suba un PDF o DOCX." /\
  text s' = "" /\
  isLoading s' = false /\
  audioUrl s' = None /\
  log s' = log after_success.
Proof.
  apply (C8_unsupported_document_is_rejected
           {| name := "acta.txt"; type := "text/plain" |} docx_read
           after_success).
  - vm_compute. discriminate.
  - vm_compute. reflexivity.
Defined.

(** C8 as stated fails: a file of MIME type [text/plain] named
    [notas.docx] is sent to the DOCX extraction and its text is shown. *)
Lemma C8_counterexample :
  let s' := exec (handleFileChange (Some misnamed_file) docx_read) initial in
  supported_mime_type (type misnamed_file) = false /\
  log s' = [ReadAsArrayBuffer; MammothExtractRawText] /\
  error s' = None /\
  text s' = "hola".
Proof. vm_compute. repeat split. Qed.

Section Synthesis.

Context {Uint8Array Blob : Type}.
Variable trim : string -> string.
Variable decode : string -> Settled Uint8Array.
Variable pcmToWavBlob : Uint8Array -> Z -> Z -> Z -> Blob.
Variable createObjectURL : Blob -> string.

Local Abbreviation handleGenerateAudio :=
  (handleGenerateAudio trim decode pcmToWavBlob createObjectURL).
Local Abbreviation handleGenerateAudio_try :=
  (handleGenerateAudio_try decode pcmToWavBlob createObjectURL).

(** An attempt is the statements before the [try], then the [try]. *)
Lemma handleGenerateAudio_attempt (env : Env)
  (service : Settled GenerateContentResponse) (s : State) :
  trim (text s) <> "" ->
  isLoading s = false ->
  exec (handleGenerateAudio env service) s
  = exec (handleGenerateAudio_try env (text s) service)
      (exec handleGenerateAudio_begin s).
Proof.
  intros Htext Hloading. apply String.eqb_neq in Htext.
  destruct s. cbn in *. subst.
  unfold TextToSpeechPanel.handleGenerateAudio, exec, bind, get. cbn.
  rewrite Htext. cbn. reflexivity.
Qed.

(** C9. For every attempt (text that is not blank, panel not loading): the
    playback URL is cleared by the statements that run before the service
    is called, which call nothing; when the service call is rejected or its
    response holds no audio data, the error is surfaced, no playback URL is
    exposed and the loading flag is cleared; whenever a playback URL is
    exposed after an attempt, it is the one made from the audio of this
    attempt. *)
Theorem C9_failed_synthesis_leaves_no_playback_url (env : Env)
  (service : Settled GenerateContentResponse) (s : State) :
  trim (text s) <> "" ->
  isLoading s = false ->
  let started := exec handleGenerateAudio_begin s in
  let s' := exec (handleGenerateAudio env service) s in
  s' = exec (handleGenerateAudio_try env (text s) service) started /\
  audioUrl started = None /\
  log started = log s /\
  (forall message : string,
     truthy (API_KEY env) = true ->
     service = Rejected message ->
     error s' = Some ("Fallo al generar audio: " +:+ message) /\
     audioUrl s' = None /\
     isLoading s' = false /\
     log s' = log s ++ [GenerateContent (text s)]) /\
  (forall response : GenerateContentResponse,
     truthy (API_KEY env) = true ->
     service = Resolved response ->
     truthy (base64Audio response) = false ->
     error s'
     = Some ("Fallo al generar audio: " +:+ "No audio data received from API.") /\
     audioUrl s' = None /\
     isLoading s' = false /\
     log s' = log s ++ [GenerateContent (text s)]) /\
  (forall url : string,
     audioUrl s' = Some url ->
     error s' = None /\
     exists (base64 : string) (audioBytes : Uint8Array),
       snd (generateSpeechFromText env (text s) service) = Resolved base64 /\
       decode base64 = Resolved audioBytes /\
       url = createObjectURL (pcmToWavBlob audioBytes 24000 1 16)).
Proof.
  intros Htext Hloading. cbn zeta.
  rewrite (handleGenerateAudio_attempt env service s Htext Hloading).
  destruct s as [txt url0 loading err l]. cbn in *.
  split; [reflexivity|]. split; [reflexivity|]. split; [reflexivity|].
  split; [|split].
  - intros message Hkey ->. handler.
    unfold generateSpeechFromText. rewrite Hkey. cbn. repeat split.
  - intros response Hkey -> Hnone. handler.
    unfold generateSpeechFromText. rewrite Hkey. cbn. rewrite Hnone. cbn.
    repeat split.
  - intros url. handler.
    destruct (generateSpeechFromText env txt service) as [called [m|base64]];
      cbn.
    + destruct called; cbn; discriminate.
    + destruct (decode base64) as [m|audioBytes] eqn:Hdecode.
      * destruct called; cbn; discriminate.
      * destruct called; cbn; intros [= <-]; (split; [reflexivity|]);
          exists base64, audioBytes; repeat split; assumption.
Qed.

End Synthesis.

Lemma C9_witness :
  let attempt service :=
    exec (handleGenerateAudio example_trim example_decode
            example_pcmToWavBlob example_createObjectURL
            example_env service) after_success in
  audioUrl after_success = Some "blob:RIFFold" /\
  (error (attempt (Resolved empty_response))
   = Some ("Fallo al generar audio: " +:+ "No audio data received from API.") /\
   audioUrl (attempt (Resolved empty_response)) = None /\
   isLoading (attempt (Resolved empty_response)) = false /\
   log (attempt (Resolved empty_response))
   = log after_success ++ [GenerateContent (text after_success)]) /\
  (error (attempt (Rejected "Failed to fetch"))
   = Some ("Fallo al generar audio: " +:+ "Failed to fetch") /\
   audioUrl (attempt (Rejected "Failed to fetch")) = None /\
   isLoading (attempt (Rejected "Failed to fetch")) = false /\
   log (attempt (Rejected "Failed to fetch"))
   = log after_success ++ [GenerateContent (text after_success)]) /\
  audioUrl (attempt (Resolved audio_response)) = Some "blob:RIFFAAAA" /\
  error (attempt (Resolved audio_response)) = None.
Proof.
  assert (Htext : example_trim (text after_success) <> "")
    by (vm_compute; discriminate).
  cbn zeta. split; [reflexivity|]. split; [|split; [|split]].
  - exact (proj1 (proj2 (proj2 (proj2 (proj2
      (C9_failed_synthesis_leaves_no_playback_url example_trim
         example_decode example_pcmToWavBlob example_createObjectURL
         example_env (Resolved empty_response) after_success Htext
         eq_refl)))))
      empty_response eq_refl eq_refl eq_refl).
  - exact (proj1 (proj2 (proj2 (proj2
      (C9_failed_synthesis_leaves_no_playback_url example_trim
         example_decode example_pcmToWavBlob example_createObjectURL
         example_env (Rejected "Failed to fetch") after_success Htext
         eq_refl))))
      "Failed to fetch" eq_refl eq_refl).
  - vm_compute. reflexivity.
  - refine (proj1 (proj2 (proj2 (proj2 (proj2 (proj2
      (C9_failed_synthesis_leaves_no_playback_url example_trim
         example_decode example_pcmToWavBlob example_createObjectURL
         example_env (Resolved audio_response) after_success Htext
         eq_refl)))))
      "blob:RIFFAAAA" _)).
    vm_compute. reflexivity.
Defined.

End TextToSpeechPanelSpec.

(** ** More properties of the transcription panel *)

Module TranscriptionPanelExtra.

Import TranscriptionPanel TranscriptionPanelSpec.

Lemma string_app_assoc (a b c : string) :
  (a +:+ b) +:+ c = a +:+ (b +:+ c).
Proof.
  induction a as [|x a IH]; [reflexivity|].
  exact (f_equal (String x) IH).
Qed.

Lemma string_app_nil_r (a : string) : a +:+ "" = a.
Proof.
  induction a as [|x a IH]; [reflexivity|].
  exact (f_equal (String x) IH).
Qed.

Lemma spaces_snoc (k : nat) : spaces k +:+ " " = spaces (S k).
Proof.
  induction k as [|k IH]; [reflexivity|].
  exact (f_equal (String " ") IH).
Qed.

(** One message, whatever it carries. *)
Lemma onmessage_spec (s : State) (session : nat) (acc : string)
  (message : LiveServerMessage) :
  currentTranscription s !! session = Some acc ->
  let s' := exec (onmessage session message) s in
  currentTranscription s' !! session
  = Some ((acc +:+ default "" (transcribed message))
          +:+ (if turn_ends message then " " else "")) /\
  transcription s' = from_option (fun t => acc +:+ t) (transcription s)
                       (transcribed message) /\
  length (currentTranscription s') = length (currentTranscription s) /\
  log s' = log s /\ isRecording s' = isRecording s /\
  isProcessing s' = isProcessing s /\ error s' = error s /\
  sessionPromiseRef s' = sessionPromiseRef s /\
  scriptProcessorRef s' = scriptProcessorRef s /\
  mediaStreamRef s' = mediaStreamRef s /\
  mediaStreamSourceRef s' = mediaStreamSourceRef s /\
  audioContextRef s' = audioContextRef s.
Proof.
  intros Hcell. pose proof (lookup_lt_Some _ _ _ Hcell) as Hlt.
  destruct s. cbn in Hcell, Hlt.
  destruct message as [[[[tr|] [[]|]]|]];
    unfold transcribed, turn_ends, js_append; handler; rewrite ?Hcell; cbn.
  all: repeat (rewrite list_lookup_insert_eq
                 by (rewrite ?length_insert; assumption); cbn).
  all: rewrite ?length_insert, ?string_app_nil_r.
  all: repeat split; try assumption.
  all: apply list_lookup_insert_eq; rewrite ?length_insert; assumption.
Qed.

Lemma deliverMessages_cons (session : nat) (message : LiveServerMessage)
  (messages : list LiveServerMessage) (s : State) :
  deliverMessages session (message :: messages) s
  = deliverMessages session messages (exec (onmessage session message) s).
Proof. reflexivity. Qed.

(** X1. Whatever messages a session delivers, the display only grows, and
    the accumulator is the display followed by spaces only: the display
    lags behind by the separators of the turns that ended since the last
    text.  Messages make no call and change no flag, error or reference. *)
Theorem X1_display_grows_and_lags_by_spaces
  (messages : list LiveServerMessage) :
  forall (s : State) (session k : nat),
  currentTranscription s !! session = Some (transcription s +:+ spaces k) ->
  let s' := deliverMessages session messages s in
  (exists (added : string) (k' : nat),
     transcription s' = transcription s +:+ added /\
     currentTranscription s' !! session
     = Some (transcription s' +:+ spaces k')) /\
  log s' = log s /\ isRecording s' = isRecording s /\
  isProcessing s' = isProcessing s /\ error s' = error s /\
  sessionPromiseRef s' = sessionPromiseRef s.
Proof.
  induction messages as [|message messages IH]; intros s session k Hcell.
  - cbn. split; [|repeat split].
    exists "", k. rewrite string_app_nil_r. split; [reflexivity | assumption].
  - cbn zeta. rewrite deliverMessages_cons.
    destruct (onmessage_spec s session _ message Hcell)
      as (Hcell1 & Hshow1 & _ & Hlog & Hrec & Hproc & Herr & Href & _).
    set (s1 := exec (onmessage session message) s) in *.
    assert (Hlag : exists added1 k1,
               transcription s1 = transcription s +:+ added1 /\
               currentTranscription s1 !! session
               = Some (transcription s1 +:+ spaces k1)).
    { rewrite Hcell1, Hshow1.
      destruct (transcribed message) as [t|]; cbn.
      - exists (spaces k +:+ t), (if turn_ends message then 1 else 0)%nat.
        rewrite string_app_assoc. split; [reflexivity|].
        destruct (turn_ends message); reflexivity.
      - exists "", (if turn_ends message then S k else k).
        rewrite !string_app_nil_r. split; [reflexivity|].
        destruct (turn_ends message).
        + rewrite string_app_assoc, spaces_snoc. reflexivity.
        + rewrite string_app_nil_r. reflexivity. }
    destruct Hlag as (added1 & k1 & Hshown1 & Hlag1).
    destruct (IH s1 session k1 Hlag1)
      as ((added2 & k2 & Hshown2 & Hlag2) & Hlog2 & Hrec2 & Hproc2 & Herr2 & Href2).
    split.
    + exists (added1 +:+ added2), k2. split; [|exact Hlag2].
      rewrite Hshown2, Hshown1, string_app_assoc. reflexivity.
    + repeat split; congruence.
Qed.

Lemma X1_witness :
  let s0 := exec (startSession example_env) initial in
  let s' := deliverMessages 0
              [message_of (PartialText "a"); message_of TurnComplete;
               message_of TurnComplete] s0 in
  exists (added : string) (k' : nat),
    transcription s' = transcription s0 +:+ added /\
    currentTranscription s' !! 0%nat = Some (transcription s' +:+ spaces k').
Proof.
  exact (proj1 (X1_display_grows_and_lags_by_spaces
                  [message_of (PartialText "a"); message_of TurnComplete;
                   message_of TurnComplete]
                  (exec (startSession example_env) initial) 0%nat 0%nat
                  eq_refl)).
Defined.

(** X2. A message whose [inputTranscription] has no [text] shows the word
    "undefined": the handler appends the missing text as JavaScript prints
    it. *)
Theorem X2_missing_text_shows_undefined (s : State) (session : nat)
  (acc : string) (turn : option bool) :
  currentTranscription s !! session = Some acc ->
  let message :=
    {| serverContent := Some {| inputTranscription := Some {| text := None |};
                                turnComplete := turn |} |} in
  transcription (exec (onmessage session message) s) = acc +:+ "undefined".
Proof.
  intros Hcell message.
  apply (proj1 (proj2 (onmessage_spec s session acc message Hcell))).
Qed.

Lemma X2_witness :
  transcription
    (exec (onmessage 0
             {| serverContent :=
                  Some {| inputTranscription := Some {| text := None |};
                          turnComplete := None |} |})
       (deliver 0 [PartialText "hola "]
          (exec (startSession example_env) initial)))
  = "hola undefined".
Proof.
  exact (X2_missing_text_shows_undefined
           (deliver 0 [PartialText "hola "]
              (exec (startSession example_env) initial))
           0%nat "hola " None eq_refl).
Defined.

(** X3. A message of an earlier session that arrives after a new recording
    has started overwrites the display of the new recording with the
    earlier session's transcript: [onmessage] writes to the display
    whatever session it belongs to. *)
Theorem X3_late_message_overwrites_new_recording (env : Env)
  (stream : MediaStream) (s : State) (earlier : nat) (acc t : string) :
  truthy (API_KEY env) = true ->
  isRecording s = false ->
  currentTranscription s !! earlier = Some acc ->
  let s1 := exec (startRecording env (Some stream)) s in
  let s2 := exec (onmessage earlier (message_of (PartialText t))) s1 in
  transcription s1 = "" /\
  sessionPromiseRef s1 = Some (length (currentTranscription s)) /\
  earlier <> length (currentTranscription s) /\
  transcription s2 = acc +:+ t.
Proof.
  intros Hkey Hrec Hcell. cbn zeta.
  pose proof (lookup_lt_Some _ _ _ Hcell) as Hlt.
  rewrite (startRecording_started env (Some stream) s Hkey Hrec).
  split; [reflexivity|]. split; [reflexivity|]. split; [lia|].
  apply onmessage_partial. cbn. rewrite lookup_app_l by assumption.
  exact Hcell.
Qed.

Lemma X3_witness :
  let s := exec stopRecording
             (deliver 0 [PartialText "uno"]
                (exec (startRecording example_env (Some [0%nat])) initial)) in
  let s1 := exec (startRecording example_env (Some [1%nat])) s in
  let s2 := exec (onmessage 0 (message_of (PartialText " dos"))) s1 in
  transcription s1 = "" /\
  sessionPromiseRef s1 = Some 1%nat /\
  0%nat <> 1%nat /\
  transcription s2 = "uno dos".
Proof.
  exact (X3_late_message_overwrites_new_recording example_env [1%nat]
           (exec stopRecording
              (deliver 0 [PartialText "uno"]
                 (exec (startRecording example_env (Some [0%nat])) initial)))
           0%nat "uno" " dos" eq_refl eq_refl eq_refl).
Defined.

(** *** Recording *)

(** X4. With a credential, when the microphone request is rejected the
    start fails: the microphone message is shown, the panel is not
    recording, the session connected a moment before is asked to close and
    the reference is cleared, no microphone or audio graph is stored, and the
    transcript shown before is gone. *)
Theorem X4_refused_microphone_closes_the_session (env : Env) (s : State) :
  truthy (API_KEY env) = true ->
  isRecording s = false ->
  let session := length (currentTranscription s) in
  let s' := exec (startRecording env None) s in
  error s'
  = Some "No se pudo acceder al micrófono. Por favor, verifique los permisos." /\
  isRecording s' = false /\
  transcription s' = "" /\
  sessionPromiseRef s' = None /\
  log s' = log s ++ [LiveConnect session; GetUserMedia; SessionClose session] /\
  mediaStreamRef s' = mediaStreamRef s /\
  scriptProcessorRef s' = scriptProcessorRef s /\
  audioContextRef s' = audioContextRef s.
Proof.
  intros Hkey Hrec. cbn zeta.
  rewrite (startRecording_started env None s Hkey Hrec). repeat split.
Qed.

Lemma X4_witness :
  let s' := exec (startRecording example_env None) initial in
  error s'
  = Some "No se pudo acceder al micrófono. Por favor, verifique los permisos." /\
  isRecording s' = false /\
  transcription s' = "" /\
  sessionPromiseRef s' = None /\
  log s' = [LiveConnect 0; GetUserMedia; SessionClose 0] /\
  mediaStreamRef s' = None /\
  scriptProcessorRef s' = None /\
  audioContextRef s' = None.
Proof.
  exact (X4_refused_microphone_closes_the_session example_env initial
           eq_refl eq_refl).
Defined.



(** X6. A session error releases nothing: the session is not asked to
    close, the reference, the microphone and the audio graph stay as they
    were.  A recording started after it connects a new session and
    replaces the reference and the stream, so the earlier session is never
    asked to close and the tracks of the earlier stream are never
    stopped. *)
Theorem X6_error_then_restart_abandons_the_session (env : Env)
  (stream : MediaStream) (s : State) :
  truthy (API_KEY env) = true ->
  let failed := exec onerror s in
  let s' := exec (startRecording env (Some stream)) failed in
  let session := length (currentTranscription s) in
  sessionPromiseRef failed = sessionPromiseRef s /\
  mediaStreamRef failed = mediaStreamRef s /\
  log s' = log s ++ [LiveConnect session; GetUserMedia] /\
  sessionPromiseRef s' = Some session /\
  mediaStreamRef s' = Some stream /\
  open_sessions (log s') = open_sessions (log s) ++ [session].
Proof.
  intros Hkey. cbn zeta.
  assert (Hfailed : exec onerror s
                    = mkState false false (transcription s)
                        (Some "Error en la sesión de transcripción. Intente de nuevo.")
                        (sessionPromiseRef s) (audioContextRef s)
                        (mediaStreamRef s) (scriptProcessorRef s)
                        (mediaStreamSourceRef s) (currentTranscription s)
                        (log s)).
  { destruct s. handler. reflexivity. }
  rewrite (startRecording_started env (Some stream) _ Hkey)
    by (rewrite Hfailed; reflexivity).
  rewrite Hfailed. cbn. repeat split.
  rewrite open_sessions_app. reflexivity.
Qed.

Lemma X6_witness :
  let s := exec (startRecording example_env (Some [0%nat])) initial in
  let s' := exec (startRecording example_env (Some [1%nat]))
              (exec onerror s) in
  open_sessions (log s') = [0%nat; 1%nat] /\
  mediaStreamRef s' = Some [1%nat] /\
  calls is_SessionClose (log s') = 0%nat.
Proof.
  pose proof (X6_error_then_restart_abandons_the_session example_env
                [1%nat]
                (exec (startRecording example_env (Some [0%nat])) initial)
                eq_refl) as (_ & _ & _ & _ & Hstream & Hopen).
  split; [exact Hopen|]. split; [exact Hstream|].
  vm_compute. reflexivity.
Defined.





(** *** Uploads *)

Section Uploads.

Context {sample : Type}.
Variable float32ArrayToPCM16Base64 : list sample -> string.
Variable resampleAudioBuffer : AudioBuffer sample -> Z -> AudioBuffer sample.

Local Abbreviation run :=
  (run float32ArrayToPCM16Base64 resampleAudioBuffer).
Local Abbreviation step :=
  (step float32ArrayToPCM16Base64 resampleAudioBuffer).
Local Abbreviation handleFileUpload :=
  (handleFileUpload float32ArrayToPCM16Base64 resampleAudioBuffer).
Local Abbreviation upload_calls :=
  (upload_calls float32ArrayToPCM16Base64 resampleAudioBuffer).
Local Abbreviation upload_samples := (upload_samples resampleAudioBuffer).
Local Abbreviation createGenAIBlob :=
  (createGenAIBlob float32ArrayToPCM16Base64).

(** An upload with a credential, in one step. *)
Lemma handleFileUpload_spec (env : Env) (file : File)
  (outcome : UploadOutcome) (s : State) :
  truthy (API_KEY env) = true ->
  let session := length (currentTranscription s) in
  let sent := bool_decide (is_Some (upload_samples outcome)) in
  exec (handleFileUpload env (Some file) outcome) s
  = mkState (isRecording s) sent ""
      (if sent then None else Some "Error al procesar el archivo de audio.")
      (if sent then Some session else None)
      (audioContextRef s) (mediaStreamRef s)
      (scriptProcessorRef s) (mediaStreamSourceRef s)
      (currentTranscription s ++ [""])
      (log s ++ upload_calls session outcome).
Proof.
  intros Hkey. destruct s, outcome as [[buffer|] opened].
  all: unfold TranscriptionPanel.handleFileUpload,
         TranscriptionPanel.upload_calls, TranscriptionPanel.upload_samples.
  all: handler; rewrite Hkey; cbn.
  - destruct opened; cbn.
    + cbv [bind]. change 0%nat with (0 * chunkSize)%nat at 1.
      rewrite (sendChunks_emits _ _ _
                 (ceil_div (length (channelData0
                    (resampleAudioBuffer buffer TARGET_SAMPLE_RATE))) chunkSize)
                 0%nat) by lia.
      cbv [emitAll emit chunks_in_order]. cbn.
      rewrite <- !app_assoc. reflexivity.
    + unfold handleFileUpload_catch. handler.
      rewrite <- !app_assoc. reflexivity.
  - unfold handleFileUpload_catch. handler.
    rewrite <- !app_assoc. reflexivity.
Qed.

Lemma dispatches_calls (session : nat) (chunks : list (list sample)) :
  let dispatches :=
    flat_map (fun chunk => [SendRealtimeInput session (createGenAIBlob chunk);
                            Delay 50]) chunks in
  calls is_SendRealtimeInput dispatches = length chunks /\
  calls is_Delay dispatches = length chunks /\
  calls is_SetTimeout dispatches = 0%nat /\
  connected dispatches = [] /\
  close_requests dispatches = [] /\
  media_sent dispatches
  = map (fun chunk => (session, createGenAIBlob chunk)) chunks.
Proof.
  cbn zeta. unfold calls, connected, close_requests, media_sent.
  induction chunks as [|chunk chunks (IH1 & IH2 & IH3 & IH4 & IH5 & IH6)];
    [repeat split|].
  cbn. repeat split; try assumption; f_equal; assumption.
Qed.


(** The sessions an upload connects and asks to close. *)
Lemma upload_calls_sessions (session : nat) (outcome : UploadOutcome) :
  connected (upload_calls session outcome) = [session] /\
  close_requests (upload_calls session outcome)
  = match upload_samples outcome with
    | Some _ => []
    | None => [session]
    end.
Proof.
  unfold TranscriptionPanel.upload_samples, TranscriptionPanel.upload_calls.
  destruct outcome as [[buffer|] [|]]; cbn [decoded sessionOpened mbind
    option_bind]; try (split; reflexivity).
  destruct (dispatches_calls session
              (chunks_in_order chunkSize (channelData0
                 (resampleAudioBuffer buffer TARGET_SAMPLE_RATE))))
    as (_ & _ & _ & Hconn & Hclose & _). cbn zeta in *.
  unfold close_requests, connected in *.
  rewrite !omap_app. cbn [omap list_omap]. rewrite !omap_app.
  rewrite Hclose, Hconn. split; reflexivity.
Qed.


(** *** The bookkeeping of sessions *)

Lemma tracked_extend (s s' : State) (new : list Effect) :
  sessions_tracked s ->
  log s' = log s ++ new ->
  (length (currentTranscription s) <= length (currentTranscription s'))%nat ->
  connected new
  = seq (length (currentTranscription s))
      (length (currentTranscription s') - length (currentTranscription s)) ->
  NoDup (close_requests new) ->
  (forall i, i ∈ close_requests new ->
     (i < length (currentTranscription s'))%nat /\
     i ∉ close_requests (log s)) ->
  (forall i, sessionPromiseRef s' = Some i ->
     (i < length (currentTranscription s'))%nat /\
     (i ∉ close_requests (log s)) /\ (i ∉ close_requests new)) ->
  (forall i, scriptProcessorRef s' = Some i ->
     (i < length (currentTranscription s'))%nat) ->
  Forall (fun sent =>
            (fst sent < length (currentTranscription s'))%nat /\
            mimeType (snd sent) = "audio/pcm;rate=16000")
    (media_sent new) ->
  sessions_tracked s'.
Proof.
  intros [Hconn Hnodup Hclosed Href Hnode Hmedia]
    Hlog Hlen Hnew Hnodup' Hclosed' Href' Hnode' Hmedia'.
  split; rewrite ?Hlog.
  - unfold connected in *. rewrite omap_app, Hconn, Hnew.
    rewrite <- seq_app. f_equal. lia.
  - unfold close_requests in *. rewrite omap_app.
    apply NoDup_app. split; [assumption|]. split; [|assumption].
    intros i Hi Hi'. apply (Hclosed' i Hi'). exact Hi.
  - unfold close_requests in *. rewrite omap_app.
    apply Forall_app. split.
    + eapply Forall_impl; [exact Hclosed|]. cbn. intros; lia.
    + apply Forall_forall. intros i Hi. apply (Hclosed' i Hi).
  - intros i Hi. destruct (Href' i Hi) as (Hlt & Hold & Hfresh).
    split; [assumption|]. unfold close_requests in *. rewrite omap_app.
    intros [?|?]%elem_of_app; auto.
  - exact Hnode'.
  - unfold media_sent in *. rewrite omap_app.
    apply Forall_app. split; [|assumption].
    eapply Forall_impl; [exact Hmedia|]. cbn. intros sent [? ?].
    split; [lia | assumption].
Qed.

Lemma tracked_same (s s' : State) :
  sessions_tracked s ->
  log s' = log s ->
  length (currentTranscription s') = length (currentTranscription s) ->
  sessionPromiseRef s' = sessionPromiseRef s ->
  scriptProcessorRef s' = scriptProcessorRef s ->
  sessions_tracked s'.
Proof.
  intros [Hconn Hnodup Hclosed Href Hnode Hmedia] Hlog Hlen Href' Hnode'.
  split; rewrite ?Hlog, ?Hlen, ?Href', ?Hnode'; assumption.
Qed.

Lemma released_sessions (s : State) :
  connected (released s) = [] /\
  close_requests (released s) = option_list (sessionPromiseRef s) /\
  media_sent (released s) = [].
Proof.
  unfold released, connected, close_requests, media_sent.
  rewrite !omap_app.
  assert (Htracks : forall (f : Effect -> option nat) tracks,
            (forall t, f (TrackStop t) = None) ->
            omap f (map TrackStop tracks) = []).
  { intros f tracks Hf. induction tracks as [|t tracks IH]; [reflexivity|].
    cbn. rewrite Hf. exact IH. }
  assert (Htracks' : forall (f : Effect -> option (nat * GenAIBlob)) tracks,
            (forall t, f (TrackStop t) = None) ->
            omap f (map TrackStop tracks) = []).
  { intros f tracks Hf. induction tracks as [|t tracks IH]; [reflexivity|].
    cbn. rewrite Hf. exact IH. }
  rewrite !Htracks, Htracks' by reflexivity.
  destruct (sessionPromiseRef s), (scriptProcessorRef s),
    (mediaStreamSourceRef s), (audioContextRef s) as [[]|]; repeat split.
Qed.

Lemma onmessage_missing (s : State) (session : nat)
  (message : LiveServerMessage) :
  currentTranscription s !! session = None ->
  exec (onmessage session message) s = s.
Proof.
  intros Hcell. destruct s. cbn in Hcell.
  destruct message as [[[[tr|] [[]|]]|]]; handler; rewrite ?Hcell; cbn;
    rewrite ?Hcell; reflexivity.
Qed.

Lemma not_elem_of_smaller (i : nat) (l : list nat) :
  Forall (fun j => j < i)%nat l -> i ∉ l.
Proof.
  intros Hall Hin. rewrite Forall_forall in Hall.
  specialize (Hall i Hin). lia.
Qed.

Lemma handleFileUpload_timeout_spec (s : State) :
  exec handleFileUpload_timeout s
  = mkState (isRecording s) false (transcription s) (error s) None
      (audioContextRef s) (mediaStreamRef s) (scriptProcessorRef s)
      (mediaStreamSourceRef s) (currentTranscription s)
      (log s ++ map SessionClose (option_list (sessionPromiseRef s))).
Proof.
  destruct s as [? ? ? ? [i|] ? ? ? ? ? ?];
    unfold handleFileUpload_timeout; handler;
    rewrite ?app_nil_r; reflexivity.
Qed.

Lemma onaudioprocess_spec (inputData : list sample) (s : State) :
  exec (onaudioprocess float32ArrayToPCM16Base64 inputData) s
  = mkState (isRecording s) (isProcessing s) (transcription s) (error s)
      (sessionPromiseRef s) (audioContextRef s) (mediaStreamRef s)
      (scriptProcessorRef s) (mediaStreamSourceRef s)
      (currentTranscription s)
      (log s ++ map (fun i => SendRealtimeInput i (createGenAIBlob inputData))
                 (option_list (scriptProcessorRef s))).
Proof.
  destruct s as [? ? ? ? ? ? ? [i|] ? ? ?];
    unfold onaudioprocess; handler; rewrite ?app_nil_r; reflexivity.
Qed.

Lemma step_tracked (env : Env) (op : Op) (s : State) :
  sessions_tracked s -> sessions_tracked (step env s op).
Proof.
  intros Hs. pose proof Hs as [Hconn Hnodup Hclosed Href Hnode Hmedia].
  destruct op as [mic| |inputData|file outcome| | |session message| |];
    cbn [TranscriptionPanel.step].
  - (* startRecording *)
    destruct (isRecording s) eqn:Hrec.
    { rewrite startRecording_ignored by assumption. exact Hs. }
    destruct (truthy (API_KEY env)) eqn:Hkey.
    + rewrite startRecording_started by assumption.
      destruct mic as [stream|].
      * eapply (tracked_extend s _ [LiveConnect _; GetUserMedia] Hs);
          cbn; rewrite ?length_app; cbn; try reflexivity.
        -- lia.
        -- replace (length (currentTranscription s) + 1
                    - length (currentTranscription s))%nat with 1%nat by lia.
           reflexivity.
        -- constructor.
        -- intros i Hi. inversion Hi.
        -- intros i [= <-]. split; [lia|]. split.
           ++ apply not_elem_of_smaller, Hclosed.
           ++ intros Hin. inversion Hin.
        -- intros i [= <-]. lia.
        -- constructor.
      * eapply (tracked_extend s _
                  [LiveConnect _; GetUserMedia; SessionClose _] Hs);
          cbn; rewrite ?length_app; cbn; try reflexivity.
        -- lia.
        -- replace (length (currentTranscription s) + 1
                    - length (currentTranscription s))%nat with 1%nat by lia.
           reflexivity.
        -- apply NoDup_singleton.
        -- intros i ->%list_elem_of_singleton. split; [lia|].
           apply not_elem_of_smaller, Hclosed.
        -- intros i [=].
        -- intros i Hi. specialize (Hnode i Hi). lia.
        -- constructor.
    + rewrite startRecording_no_credential by assumption.
      apply (tracked_same s _ Hs); reflexivity.
  - (* stopRecording *)
    rewrite stopRecording_spec.
    destruct (released_sessions s) as (Hc & Hr & Hm).
    eapply (tracked_extend s _ (released s) Hs); cbn;
      rewrite ?Nat.sub_diag, ?Hc, ?Hr, ?Hm; try reflexivity.
    + destruct (sessionPromiseRef s); cbn;
        [apply NoDup_singleton | constructor].
    + intros i Hi. destruct (sessionPromiseRef s) as [j|] eqn:Hj; cbn in Hi.
      * apply list_elem_of_singleton in Hi as ->. apply Href. reflexivity.
      * inversion Hi.
    + intros i [=].
    + intros i [=].
    + constructor.
  - (* onaudioprocess *)
    rewrite onaudioprocess_spec.
    eapply (tracked_extend s _ _ Hs);
      cbn [log currentTranscription sessionPromiseRef scriptProcessorRef];
      rewrite ?Nat.sub_diag; try reflexivity.
    + destruct (scriptProcessorRef s); reflexivity.
    + destruct (scriptProcessorRef s); constructor.
    + intros j Hj. destruct (scriptProcessorRef s); inversion Hj.
    + intros j Hj. destruct (Href j Hj). repeat split; try assumption.
      intros Hin. destruct (scriptProcessorRef s); inversion Hin.
    + exact Hnode.
    + destruct (scriptProcessorRef s) as [i|] eqn:Hi; [|constructor].
      constructor; [|constructor]. cbn. split; [|reflexivity].
      apply Hnode. reflexivity.
  - (* handleFileUpload *)
    destruct file as [file|]; [|exact Hs].
    destruct (truthy (API_KEY env)) eqn:Hkey.
    + rewrite handleFileUpload_spec by assumption.
      destruct (upload_calls_sessions (length (currentTranscription s))
                  outcome) as [Hconnected Hcloses].
      eapply (tracked_extend s _ (upload_calls _ outcome) Hs);
        cbn [log currentTranscription sessionPromiseRef scriptProcessorRef];
        rewrite ?length_app; cbn [length]; try reflexivity.
      * lia.
      * rewrite Hconnected.
        replace (length (currentTranscription s) + 1
                 - length (currentTranscription s))%nat with 1%nat by lia.
        reflexivity.
      * rewrite Hcloses. destruct (upload_samples outcome);
          [constructor | apply NoDup_singleton].
      * intros i Hi. rewrite Hcloses in Hi.
        destruct (upload_samples outcome); [inversion Hi|].
        apply list_elem_of_singleton in Hi as ->. split; [lia|].
        apply not_elem_of_smaller, Hclosed.
      * intros i Hi. rewrite Hcloses.
        destruct (upload_samples outcome); cbn in Hi; [|discriminate].
        injection Hi as <-.
        split; [lia|]. split; [apply not_elem_of_smaller, Hclosed|].
        intros Hin. inversion Hin.
      * intros i Hi. specialize (Hnode i Hi). lia.
      * unfold TranscriptionPanel.upload_calls.
        destruct (decoded outcome) as [buffer|]; [|constructor].
        destruct (sessionOpened outcome); [|constructor].
        unfold media_sent. cbn [app omap list_omap]. rewrite omap_app.
        destruct (dispatches_calls (length (currentTranscription s))
                    (chunks_in_order chunkSize (channelData0
                       (resampleAudioBuffer buffer TARGET_SAMPLE_RATE))))
          as (_ & _ & _ & _ & _ & Hsent).
        unfold media_sent in Hsent. rewrite Hsent. cbn. rewrite app_nil_r.
        apply Forall_forall. intros sent Hin.
        apply list_elem_of_fmap in Hin as (chunk & -> & _).
        cbn. split; [lia | reflexivity].
    + rewrite handleFileUpload_no_credential by assumption.
      apply (tracked_same s _ Hs); reflexivity.
  - (* the settling timer *)
    rewrite handleFileUpload_timeout_spec.
    eapply (tracked_extend s _ _ Hs);
      cbn [log currentTranscription sessionPromiseRef scriptProcessorRef];
      rewrite ?Nat.sub_diag; try reflexivity.
    + destruct (sessionPromiseRef s); reflexivity.
    + destruct (sessionPromiseRef s); cbn;
        [apply NoDup_singleton | constructor].
    + intros j Hj. destruct (sessionPromiseRef s) as [i|] eqn:Hi; cbn in Hj.
      * apply list_elem_of_singleton in Hj as ->. apply Href. reflexivity.
      * inversion Hj.
    + intros j [=].
    + exact Hnode.
    + destruct (sessionPromiseRef s); constructor.
  - apply (tracked_same s _ Hs); destruct s; handler; reflexivity.
  - destruct (currentTranscription s !! session) as [acc|] eqn:Hcell.
    + destruct (onmessage_spec s session acc message Hcell)
        as (_ & _ & Hlen & Hlog & _ & _ & _ & Href' & Hnode' & _).
      apply (tracked_same s _ Hs); assumption.
    + rewrite onmessage_missing by assumption. exact Hs.
  - apply (tracked_same s _ Hs); destruct s; handler; reflexivity.
  - apply (tracked_same s _ Hs); destruct s; handler; reflexivity.
Qed.

Lemma run_tracked (env : Env) (ops : list Op) :
  forall s : State, sessions_tracked s -> sessions_tracked (run env ops s).
Proof.
  induction ops as [|op ops IH]; intros s Hs; [exact Hs|].
  cbn. apply IH, step_tracked, Hs.
Qed.

Lemma initial_tracked : sessions_tracked initial.
Proof.
  split; cbn.
  - reflexivity.
  - apply NoDup_nil_2.
  - apply Forall_nil_2.
  - intros i [=].
  - intros i [=].
  - apply Forall_nil_2.
Qed.

(** X9. Whatever happens to the panel (recordings, uploads, microphone
    blocks, timers, session callbacks, in any order and with any outcome),
    every media it has sent went to a session that had been connected, and
    was declared as PCM at the target rate of 16000 Hz. *)
Theorem X9_media_go_to_connected_sessions_at_target_rate (env : Env)
  (ops : list Op) :
  Forall (fun sent =>
            fst sent ∈ connected (log (run env ops initial)) /\
            mimeType (snd sent) = "audio/pcm;rate=16000")
    (media_sent (log (run env ops initial))).
Proof.
  destruct (run_tracked env ops initial initial_tracked)
    as [Hconn _ _ _ _ Hmedia].
  eapply Forall_impl; [exact Hmedia|]. cbn. intros sent [Hlt Hmime].
  split; [|assumption]. rewrite Hconn. apply elem_of_seq. lia.
Qed.

(** X10. Whatever happens to the panel, sessions are numbered in the order
    they are connected, no session is asked to close twice, only connected
    sessions are asked to close, and the session reference holds a
    connected session that has not been asked to close. *)
Theorem X10_no_session_is_closed_twice (env : Env) (ops : list Op) :
  let s := run env ops initial in
  connected (log s) = seq 0 (length (connected (log s))) /\
  NoDup (close_requests (log s)) /\
  Forall (fun i => i ∈ connected (log s)) (close_requests (log s)) /\
  (forall i, sessionPromiseRef s = Some i ->
     i ∈ connected (log s) /\ i ∉ close_requests (log s)).
Proof.
  cbn zeta.
  destruct (run_tracked env ops initial initial_tracked)
    as [Hconn Hnodup Hclosed Href _ _].
  rewrite Hconn, length_seq. split; [reflexivity|]. split; [assumption|].
  split.
  - eapply Forall_impl; [exact Hclosed|]. cbn. intros i Hi.
    apply elem_of_seq. lia.
  - intros i Hi. destruct (Href i Hi) as [Hlt Hfresh].
    split; [apply elem_of_seq; lia | assumption].
Qed.

(** X20. An upload started while the session reference holds a session
    (a recording is running) makes that session unreachable: the upload
    replaces the reference, so neither its failure handler, nor its
    settling timer, nor a later stop of the recording asks the earlier
    session to close.  It stays connected and is referenced no more. *)
Theorem X20_upload_during_recording_abandons_the_session (env : Env)
  (ops : list Op) (file : File) (outcome : UploadOutcome) (i : nat) :
  truthy (API_KEY env) = true ->
  let s := run env ops initial in
  sessionPromiseRef s = Some i ->
  let s' := exec stopRecording
              (exec handleFileUpload_timeout
                 (exec (handleFileUpload env (Some file) outcome) s)) in
  sessionPromiseRef s' = None /\
  i ∈ connected (log s') /\
  i ∉ close_requests (log s').
Proof.
  intros Hkey s Hi. cbn zeta.
  destruct (run_tracked env ops initial initial_tracked)
    as [Hconn _ _ Href _ _].
  fold s in Hconn, Href. destruct (Href i Hi) as [Hlt Hfresh].
  destruct (upload_calls_sessions (length (currentTranscription s)) outcome)
    as [Hconnected Hcloses].
  rewrite stopRecording_spec, handleFileUpload_timeout_spec.
  rewrite (handleFileUpload_spec env file outcome s Hkey).
  cbn [sessionPromiseRef log].
  set (s2 := mkState _ _ _ _ None _ _ _ _ _ _).
  destruct (released_sessions s2) as (Hc & Hr & _).
  unfold connected, close_requests in *.
  rewrite !omap_app, Hr. cbn [sessionPromiseRef option_list s2].
  rewrite app_nil_r. split; [reflexivity|].
  assert (Hnew : i ∉ omap (fun e => match e with
                                    | SessionClose j => Some j
                                    | _ => None
                                    end)
                   (upload_calls (length (currentTranscription s)) outcome)).
  { intros Hnew. rewrite Hcloses in Hnew.
    destruct (upload_samples outcome); [inversion Hnew|].
    apply list_elem_of_singleton in Hnew. lia. }
  assert (Htimer : i ∉ omap (fun e => match e with
                                      | SessionClose j => Some j
                                      | _ => None
                                      end)
                     (map SessionClose
                        (option_list
                           (if bool_decide (is_Some (upload_samples outcome))
                            then Some (length (currentTranscription s))
                            else None)))).
  { intros Htimer. destruct (bool_decide _); cbn in Htimer;
      [|inversion Htimer].
    apply list_elem_of_singleton in Htimer. lia. }
  assert (Hin : (0 <= i < 0 + length (currentTranscription s))%nat) by lia.
  apply elem_of_seq in Hin. rewrite <- Hconn in Hin.
  rewrite !elem_of_app. split; [tauto|]. intuition.
Qed.

End Uploads.


Lemma X10_witness :
  let s := run example_encoder example_resampler example_env
             [StartRecording (Some [0%nat])] initial in
  0%nat ∈ connected (log s) /\ 0%nat ∉ close_requests (log s).
Proof.
  cbn zeta.
  apply (proj2 (proj2 (proj2
    (X10_no_session_is_closed_twice example_encoder example_resampler
       example_env [StartRecording (Some [0%nat])])))).
  vm_compute. reflexivity.
Defined.

Lemma X20_witness :
  let s := run example_encoder example_resampler example_env
             [StartRecording (Some [0%nat])] initial in
  let s' := exec stopRecording
              (exec handleFileUpload_timeout
                 (exec (handleFileUpload example_encoder example_resampler
                          example_env (Some example_file) one_second_upload)
                    s)) in
  sessionPromiseRef s' = None /\
  0%nat ∈ connected (log s') /\
  0%nat ∉ close_requests (log s').
Proof.
  apply (X20_upload_during_recording_abandons_the_session example_encoder
           example_resampler example_env [StartRecording (Some [0%nat])]
           example_file one_second_upload 0%nat eq_refl).
  vm_compute. reflexivity.
Defined.

End TranscriptionPanelExtra.

(** ** More properties of the text-to-speech panel *)

Module TextToSpeechPanelExtra.

Import GeminiService TextToSpeechPanel TextToSpeechPanelSpec.
Import TranscriptionPanelExtra.

Lemma concat_empty_cons (x : string) (l : list string) :
  String.concat "" (x :: l) = x +:+ String.concat "" l.
Proof.
  destruct l as [|y l]; cbn; [rewrite string_app_nil_r|]; reflexivity.
Qed.

(** The page loop, in one step. *)
Lemma readPages_spec (pages : list (option (list string))) :
  forall (i : nat) (content : string) (s : State),
  readPages pages i content s
  = (if (length (readable_prefix pages) =? length pages)%nat
     then Some (content +:+ pdf_text (readable_prefix pages))
     else None,
     mkState (text s) (audioUrl s) (isLoading s) (error s)
       (log s ++ map PdfGetPage
                   (seq i (length pages `min` S (length (readable_prefix pages)))))).
Proof.
  induction pages as [|[items|] pages IH]; intros i content s.
  - destruct s. cbn. rewrite string_app_nil_r, app_nil_r. reflexivity.
  - cbn [readPages]. unfold bind at 1. cbv [emit]. rewrite IH.
    cbn [readable_prefix length text audioUrl isLoading error log].
    unfold pdf_text. cbn [map]. rewrite concat_empty_cons.
    rewrite string_app_assoc, <- app_assoc.
    change (S (length (readable_prefix pages)) =? S (length pages))%nat
      with (length (readable_prefix pages) =? length pages)%nat.
    reflexivity.
  - destruct s. cbn. rewrite Nat.min_0_r. reflexivity.
Qed.

(** A document of MIME type [application/pdf] whose reader loads. *)
Lemma handleFileChange_pdf (file : File) (outcome : ReadOutcome) (s : State) :
  type file = "application/pdf" ->
  loaded outcome = true ->
  let pages := default [] (pdf outcome) in
  let complete :=
    bool_decide (is_Some (pdf outcome)) &&
    (length (readable_prefix pages) =? length pages)%nat in
  exec (handleFileChange (Some file) outcome) s
  = mkState (if complete then pdf_text (readable_prefix pages) else "")
      None false
      (if complete then None else Some "No se pudo procesar el archivo PDF.")
      (log s ++ [ReadAsArrayBuffer; PdfGetDocument] ++
       map PdfGetPage
         (seq 1 (length pages `min` S (length (readable_prefix pages))))).
Proof.
  intros Htype Hloaded. destruct s as [txt url loading err l].
  unfold handleFileChange, exec. cbv [bind setError setIsLoading setAudioUrl
    setText]. cbn [text audioUrl isLoading error log].
  rewrite Htype. cbn [String.eqb Ascii.eqb Bool.eqb].
  change ("application/pdf" =? "application/pdf")%string with true.
  cbv iota. cbv [emit when]. rewrite Hloaded.
  unfold pdf_onload. cbv [bind emit].
  cbn [text audioUrl isLoading error log].
  destruct (pdf outcome) as [pages|]; cbn [default bool_decide decide_rel
    is_Some_dec andb].
  - rewrite readPages_spec. cbn [text audioUrl isLoading error log].
    unfold id.
    destruct (length (readable_prefix pages) =? length pages)%nat;
      cbv [setText setError setIsLoading ret]; cbn;
      rewrite <- !app_assoc; reflexivity.
  - cbv [setText setError setIsLoading ret]. cbn.
    rewrite <- !app_assoc. reflexivity.
Qed.

(** X11. A PDF whose reader loads: when pdf.js opens the document and every
    page is read, the text field holds the text items of each page joined
    by a space, the pages following one another with nothing in between,
    and no error is shown; when the document cannot be opened or a page
    fails, the PDF error is shown and the text field is empty, and the pages
    after the failing one are not requested.  Either way the panel stops
    loading and no playback URL is left. *)
Theorem X11_pdf_pages_are_joined_or_the_error_is_shown (file : File)
  (outcome : ReadOutcome) (s : State) :
  type file = "application/pdf" ->
  loaded outcome = true ->
  let s' := exec (handleFileChange (Some file) outcome) s in
  let pages := default [] (pdf outcome) in
  let requested := (length pages `min` S (length (readable_prefix pages)))%nat in
  log s' = log s ++ [ReadAsArrayBuffer; PdfGetDocument] ++
           map PdfGetPage (seq 1 requested) /\
  isLoading s' = false /\
  audioUrl s' = None /\
  (forall texts : list (list string),
     pdf outcome = Some (map Some texts) ->
     text s' = pdf_text texts /\ error s' = None) /\
  ((pdf outcome = None \/
    (length (readable_prefix pages) < length pages)%nat) ->
   text s' = "" /\
   error s' = Some "No se pudo procesar el archivo PDF.").
Proof.
  intros Htype Hloaded. cbn zeta.
  rewrite (handleFileChange_pdf file outcome s Htype Hloaded).
  cbn [text audioUrl isLoading error log].
  split; [reflexivity|]. split; [reflexivity|]. split; [reflexivity|].
  split.
  - intros texts ->. cbn [default bool_decide decide_rel is_Some_dec andb].
    unfold id.
    assert (Hall : readable_prefix (map Some texts) = texts).
    { induction texts as [|t texts IH]; [reflexivity|].
      cbn. rewrite IH. reflexivity. }
    rewrite Hall, length_map, Nat.eqb_refl. split; reflexivity.
  - intros [-> | Hlt]; [split; reflexivity|].
    destruct (pdf outcome) as [pages|]; [|split; reflexivity].
    cbn [default bool_decide decide_rel is_Some_dec andb] in *.
    unfold id in *.
    destruct (Nat.eqb_spec (length (readable_prefix pages)) (length pages));
      [lia | split; reflexivity].
Qed.

Lemma X11_witness :
  let read := {| loaded := true; pdf := Some (map Some two_pages);
                 docx := None |} in
  let broken := {| loaded := true;
                   pdf := Some [Some ["Primera"]; None; Some ["Tercera"]];
                   docx := None |} in
  text (exec (handleFileChange (Some example_pdf) read) initial)
  = "Primera audienciaSegunda audiencia" /\
  error (exec (handleFileChange (Some example_pdf) read) initial) = None /\
  text (exec (handleFileChange (Some example_pdf) broken) initial) = "" /\
  error (exec (handleFileChange (Some example_pdf) broken) initial)
  = Some "No se pudo procesar el archivo PDF." /\
  log (exec (handleFileChange (Some example_pdf) broken) initial)
  = [ReadAsArrayBuffer; PdfGetDocument; PdfGetPage 1; PdfGetPage 2].
Proof.
  cbn zeta.
  pose proof (X11_pdf_pages_are_joined_or_the_error_is_shown example_pdf
                {| loaded := true; pdf := Some (map Some two_pages);
                   docx := None |} initial eq_refl eq_refl)
    as (_ & _ & _ & Hread & _).
  pose proof (X11_pdf_pages_are_joined_or_the_error_is_shown example_pdf
                {| loaded := true;
                   pdf := Some [Some ["Primera"]; None; Some ["Tercera"]];
                   docx := None |} initial eq_refl eq_refl)
    as (Hlog & _ & _ & _ & Hbroken).
  destruct (Hread two_pages eq_refl) as [Htext Herror].
  destruct Hbroken as [Htext' Herror']; [right; cbn; lia|].
  repeat split; assumption.
Defined.

(** A document named [.docx], not of the PDF type, whose reader loads. *)
Lemma handleFileChange_docx (file : File) (outcome : ReadOutcome) (s : State) :
  type file <> "application/pdf" ->
  endsWith (name file) ".docx" = true ->
  loaded outcome = true ->
  exec (handleFileChange (Some file) outcome) s
  = mkState (default "" (docx outcome)) None false
      (match docx outcome with
       | Some _ => None
       | None => Some "No se pudo procesar el archivo DOCX."
       end)
      (log s ++ [ReadAsArrayBuffer; MammothExtractRawText]).
Proof.
  intros Htype Hname Hloaded. apply String.eqb_neq in Htype.
  destruct s. handler. rewrite Htype, Hname, Hloaded. cbn.
  destruct (docx outcome); cbn; rewrite <- !app_assoc; reflexivity.
Qed.

(** X12. Whenever the reader of a chosen document loads, whatever the file
    and whatever the extraction delivers, the upload ends with the panel
    not loading and without playback URL, and an error is never shown
    beside a text: either no error is shown or the text field is empty.
    For a document named [.docx] the text is the value mammoth extracts. *)
Theorem X12_loaded_document_ends_loading (file : File)
  (outcome : ReadOutcome) (s : State) :
  loaded outcome = true ->
  let s' := exec (handleFileChange (Some file) outcome) s in
  isLoading s' = false /\
  audioUrl s' = None /\
  (error s' = None \/ text s' = "") /\
  (forall value : string,
     type file <> "application/pdf" ->
     endsWith (name file) ".docx" = true ->
     docx outcome = Some value ->
     text s' = value /\ error s' = None /\
     log s' = log s ++ [ReadAsArrayBuffer; MammothExtractRawText]).
Proof.
  intros Hloaded. cbn zeta.
  destruct (String.eqb_spec (type file) "application/pdf") as [Hpdf|Hpdf].
  - rewrite (handleFileChange_pdf file outcome s Hpdf Hloaded).
    cbn [text audioUrl isLoading error log].
    split; [reflexivity|]. split; [reflexivity|]. split.
    + destruct (_ && _); [left | right]; reflexivity.
    + intros value Hne. contradiction.
  - destruct (endsWith (name file) ".docx") eqn:Hname.
    + rewrite (handleFileChange_docx file outcome s Hpdf Hname Hloaded).
      cbn [text audioUrl isLoading error log].
      split; [reflexivity|]. split; [reflexivity|]. split.
      * destruct (docx outcome); [left | right]; reflexivity.
      * intros value _ _ ->. repeat split.
    + apply String.eqb_neq in Hpdf.
      destruct s. handler. rewrite Hpdf, Hname. cbn.
      split; [reflexivity|]. split; [reflexivity|]. split.
      * right. reflexivity.
      * intros value _ Hdocx. discriminate.
Qed.

Lemma X12_witness :
  let file := {| name := "acta.docx"; type := "" |} in
  let s' := exec (handleFileChange (Some file) docx_read) after_success in
  isLoading s' = false /\ audioUrl s' = None /\
  text s' = "hola" /\ error s' = None.
Proof.
  cbn zeta.
  pose proof (X12_loaded_document_ends_loading
                {| name := "acta.docx"; type := "" |} docx_read after_success
                eq_refl) as (Hloading & Hurl & _ & Hdocx).
  destruct (Hdocx "hola") as (Htext & Herror & _);
    [vm_compute; discriminate | vm_compute; reflexivity | reflexivity |].
  repeat split; assumption.
Defined.

Section Synthesis.

Context {Uint8Array Blob : Type}.
Variable trim : string -> string.
Variable decode : string -> Settled Uint8Array.
Variable pcmToWavBlob : Uint8Array -> Z -> Z -> Z -> Blob.
Variable createObjectURL : Blob -> string.

Local Abbreviation handleGenerateAudio :=
  (handleGenerateAudio trim decode pcmToWavBlob createObjectURL).
Local Abbreviation step :=
  (step trim decode pcmToWavBlob createObjectURL).
Local Abbreviation run :=
  (run trim decode pcmToWavBlob createObjectURL).

(** A click on the button without an attempt. *)
Lemma handleGenerateAudio_guarded (env : Env)
  (service : Settled GenerateContentResponse) (s : State) :
  trim (text s) = "" \/ isLoading s = true ->
  exec (handleGenerateAudio env service) s = s.
Proof.
  intros Hguard. destruct s as [txt url loading err l]. cbn in Hguard.
  unfold TextToSpeechPanel.handleGenerateAudio, exec, bind, get. cbn.
  destruct Hguard as [-> | ->]; [reflexivity|].
  rewrite orb_true_r. reflexivity.
Qed.

(** An attempt, in one step. *)
Lemma handleGenerateAudio_spec (env : Env)
  (service : Settled GenerateContentResponse) (s : State) :
  trim (text s) <> "" ->
  isLoading s = false ->
  let result := generateSpeechFromText env (text s) service in
  let called := if fst result then [GenerateContent (text s)] else [] in
  exec (handleGenerateAudio env service) s
  = match andThen (snd result) decode with
    | Resolved audioBytes =>
        mkState (text s)
          (Some (createObjectURL (pcmToWavBlob audioBytes 24000 1 16)))
          false None (log s ++ called ++ [CreateObjectURL])
    | Rejected message =>
        mkState (text s) None false
          (Some ("Fallo al generar audio: " +:+ message)) (log s ++ called)
    end.
Proof.
  intros Htext Hloading.
  rewrite (handleGenerateAudio_attempt trim decode pcmToWavBlob
             createObjectURL env service s Htext Hloading).
  destruct s as [txt url loading err l]. cbn [text].
  unfold TextToSpeechPanel.handleGenerateAudio_try,
    handleGenerateAudio_begin.
  destruct (generateSpeechFromText env txt service) as [called result].
  handler.
  destruct (andThen result decode) as [message|audioBytes], called; cbn;
    rewrite <- ?app_assoc, ?app_nil_r; reflexivity.
Qed.

(** X13. When the reader of a PDF or [.docx] document never loads, the
    panel is left loading with the placeholder text, and from then on the
    audio button does nothing, whatever the service would answer. *)
Theorem X13_reader_that_never_loads_blocks_the_panel (file : File)
  (outcome : ReadOutcome) (s : State) :
  loaded outcome = false ->
  type file = "application/pdf" \/ endsWith (name file) ".docx" = true ->
  let s' := exec (handleFileChange (Some file) outcome) s in
  isLoading s' = true /\
  text s' = "Procesando archivo: " +:+ name file +:+ "..." /\
  error s' = None /\
  log s' = log s ++ [ReadAsArrayBuffer] /\
  (forall (env : Env) (service : Settled GenerateContentResponse),
     exec (handleGenerateAudio env service) s' = s').
Proof.
  intros Hloaded Hkind. cbn zeta.
  assert (Hstate : exec (handleFileChange (Some file) outcome) s
                   = mkState ("Procesando archivo: " +:+ name file +:+ "...")
                       None true None (log s ++ [ReadAsArrayBuffer])).
  { destruct s. handler.
    destruct (String.eqb_spec (type file) "application/pdf") as [Hpdf|Hpdf].
    - rewrite Hloaded. reflexivity.
    - destruct Hkind as [Hpdf'|Hname]; [contradiction|].
      rewrite Hname, Hloaded. reflexivity. }
  rewrite Hstate. repeat split.
  intros env service. apply handleGenerateAudio_guarded. right. reflexivity.
Qed.

(** X14. The successful synthesis: with a credential, a response whose
    first part of the first candidate holds audio data, and data that
    [decode] accepts, the attempt calls the service once with the text,
    wraps the decoded bytes as 24000 Hz, 1 channel, 16 bits, exposes the URL
    of that blob, shows no error and stops loading. *)
Theorem X14_synthesis_exposes_the_new_audio (env : Env)
  (response : GenerateContentResponse) (base64 : string)
  (audioBytes : Uint8Array) (s : State) :
  trim (text s) <> "" ->
  isLoading s = false ->
  truthy (API_KEY env) = true ->
  base64Audio response = Some base64 ->
  base64 <> "" ->
  decode base64 = Resolved audioBytes ->
  let s' := exec (handleGenerateAudio env (Resolved response)) s in
  audioUrl s' = Some (createObjectURL (pcmToWavBlob audioBytes 24000 1 16)) /\
  error s' = None /\
  isLoading s' = false /\
  text s' = text s /\
  log s' = log s ++ [GenerateContent (text s); CreateObjectURL].
Proof.
  intros Htext Hloading Hkey Haudio Hdata Hdecode. cbn zeta.
  rewrite (handleGenerateAudio_spec env _ s Htext Hloading).
  unfold generateSpeechFromText. rewrite Hkey. cbn.
  rewrite Haudio. cbn. apply String.eqb_neq in Hdata. rewrite Hdata. cbn.
  rewrite Hdecode. repeat split.
Qed.

(** X15. When [decode] throws on the audio data, the attempt ends as a
    failure: the message of the exception is shown, no playback URL is
    exposed, no object URL is created and the panel stops loading. *)
Theorem X15_undecodable_audio_is_a_failure (env : Env)
  (response : GenerateContentResponse) (base64 message : string)
  (s : State) :
  trim (text s) <> "" ->
  isLoading s = false ->
  truthy (API_KEY env) = true ->
  base64Audio response = Some base64 ->
  base64 <> "" ->
  decode base64 = Rejected message ->
  let s' := exec (handleGenerateAudio env (Resolved response)) s in
  audioUrl s' = None /\
  error s' = Some ("Fallo al generar audio: " +:+ message) /\
  isLoading s' = false /\
  log s' = log s ++ [GenerateContent (text s)].
Proof.
  intros Htext Hloading Hkey Haudio Hdata Hdecode. cbn zeta.
  rewrite (handleGenerateAudio_spec env _ s Htext Hloading).
  unfold generateSpeechFromText. rewrite Hkey. cbn.
  rewrite Haudio. cbn. apply String.eqb_neq in Hdata. rewrite Hdata. cbn.
  rewrite Hdecode. repeat split.
Qed.

(** X16. Without a credential an attempt never reaches the service: the
    missing-key message is shown behind the failure prefix, no call is
    made, no playback URL is exposed, and the panel stops loading. *)
Theorem X16_synthesis_without_credential_calls_nothing (env : Env)
  (service : Settled GenerateContentResponse) (s : State) :
  trim (text s) <> "" ->
  isLoading s = false ->
  truthy (API_KEY env) = false ->
  let s' := exec (handleGenerateAudio env service) s in
  error s'
  = Some ("Fallo al generar audio: " +:+ "API_KEY environment variable not set.") /\
  audioUrl s' = None /\
  isLoading s' = false /\
  log s' = log s.
Proof.
  intros Htext Hloading Hkey. cbn zeta.
  rewrite (handleGenerateAudio_spec env _ s Htext Hloading).
  unfold generateSpeechFromText. rewrite Hkey. cbn.
  rewrite app_nil_r. repeat split.
Qed.

(** *** Every run of the panel *)

Lemma synthesis_calls_app (p : Effect -> bool) (l1 l2 : list Effect) :
  calls p (l1 ++ l2) = (calls p l1 + calls p l2)%nat.
Proof. unfold calls. rewrite List.filter_app, length_app. reflexivity. Qed.

Lemma pages_are_no_synthesis (l : list nat) :
  synthesized (map PdfGetPage l) = [] /\
  calls is_CreateObjectURL (map PdfGetPage l) = 0%nat /\
  calls is_GenerateContent (map PdfGetPage l) = 0%nat.
Proof.
  unfold calls, synthesized.
  induction l as [|i l (IH1 & IH2 & IH3)]; repeat split; assumption.
Qed.

(** A chosen document clears the playback URL and calls no synthesis. *)
Lemma handleFileChange_calls (file : File) (outcome : ReadOutcome)
  (s : State) :
  let s' := exec (handleFileChange (Some file) outcome) s in
  audioUrl s' = None /\
  exists new : list Effect,
    log s' = log s ++ new /\ synthesized new = [] /\
    calls is_CreateObjectURL new = 0%nat /\
    calls is_GenerateContent new = 0%nat.
Proof.
  cbn zeta. destruct (loaded outcome) eqn:Hloaded.
  - destruct (String.eqb_spec (type file) "application/pdf") as [Hpdf|Hpdf].
    + rewrite (handleFileChange_pdf file outcome s Hpdf Hloaded).
      cbn [audioUrl log]. split; [reflexivity|]. eexists. split; [reflexivity|].
      destruct (pages_are_no_synthesis
                  (seq 1 (length (default [] (pdf outcome))
                          `min` S (length (readable_prefix
                                             (default [] (pdf outcome)))))))
        as (H1 & H2 & H3).
      unfold synthesized in *. rewrite omap_app, !synthesis_calls_app, H1, H2, H3.
      repeat split.
    + destruct (endsWith (name file) ".docx") eqn:Hname.
      * rewrite (handleFileChange_docx file outcome s Hpdf Hname Hloaded).
        cbn [audioUrl log]. split; [reflexivity|].
        eexists. split; [reflexivity|]. repeat split.
      * apply String.eqb_neq in Hpdf. destruct s. handler.
        rewrite Hpdf, Hname. cbn. split; [reflexivity|].
        exists []. rewrite app_nil_r. repeat split.
  - destruct s. handler.
    destruct (type file =? "application/pdf")%string; cbn;
      [|destruct (endsWith (name file) ".docx"); cbn]; rewrite ?Hloaded; cbn.
    all: split; [reflexivity|].
    1,2: exists [ReadAsArrayBuffer]; repeat split.
    exists []. rewrite app_nil_r. repeat split.
Qed.

(** What the panel keeps: no error beside a playback URL; every text sent
    to the service is not blank; every object URL follows a service call; no
    service call without a credential. *)
Lemma step_keeps (env : Env) (op : Op) (s : State) :
  (audioUrl s <> None -> error s = None) /\
  Forall (fun t => trim t <> "") (synthesized (log s)) /\
  (calls is_CreateObjectURL (log s) <= calls is_GenerateContent (log s))%nat /\
  (truthy (API_KEY env) = false -> synthesized (log s) = []) ->
  let s' := step env s op in
  (audioUrl s' <> None -> error s' = None) /\
  Forall (fun t => trim t <> "") (synthesized (log s')) /\
  (calls is_CreateObjectURL (log s') <= calls is_GenerateContent (log s'))%nat /\
  (truthy (API_KEY env) = false -> synthesized (log s') = []).
Proof.
  intros (Hshown & Htexts & Hurls & Hnone). cbn zeta.
  destruct op as [value|[file|] outcome|service]; cbn [TextToSpeechPanel.step].
  - destruct s. cbn in *. repeat split; assumption.
  - destruct (handleFileChange_calls file outcome s)
      as (Hurl & new & Hlog & Hsyn & Hcreate & Hgenerate).
    rewrite Hlog, Hurl. unfold synthesized in *.
    rewrite omap_app, !synthesis_calls_app, Hsyn, Hcreate, Hgenerate, app_nil_r.
    repeat split; try assumption; try lia. intros Hne. contradiction.
  - repeat split; assumption.
  - destruct (String.eqb_spec (trim (text s)) "") as [Hblank|Htext].
    { rewrite handleGenerateAudio_guarded by (left; assumption).
      repeat split; assumption. }
    destruct (isLoading s) eqn:Hloading.
    { rewrite handleGenerateAudio_guarded by (right; assumption).
      repeat split; assumption. }
    rewrite (handleGenerateAudio_spec env service s Htext Hloading).
    unfold generateSpeechFromText.
    destruct (truthy (API_KEY env)) eqn:Hkey; cbn [negb fst snd].
    + destruct (andThen (andThen service _) decode) as [message|audioBytes];
        cbn [audioUrl error log]; unfold synthesized in *;
        rewrite ?omap_app, !synthesis_calls_app; cbn [omap list_omap app].
      * repeat split; try discriminate.
        -- intros Hne. contradiction.
        -- apply Forall_app. split; [assumption|].
           constructor; [assumption | constructor].
        -- unfold calls in *. cbn. lia.
      * repeat split; try discriminate.
        -- apply Forall_app. split; [assumption|].
           constructor; [assumption | constructor].
        -- unfold calls in *. cbn. lia.
    + cbn [andThen audioUrl error log]. rewrite app_nil_r.
      repeat split; try assumption. intros Hne. contradiction.
Qed.

(** X17. Whatever happens to the panel (typing, documents, clicks on the
    audio button, in any order and with any outcome): an error is never
    shown beside a playback URL; the service is only ever called with text
    that is not blank; object URLs are created no more often than the
    service is called; and without a credential the service is never
    called. *)
Theorem X17_panel_never_synthesizes_blank_text (env : Env) (ops : list Op) :
  let s := run env ops initial in
  (audioUrl s <> None -> error s = None) /\
  Forall (fun t => trim t <> "") (synthesized (log s)) /\
  (calls is_CreateObjectURL (log s) <= calls is_GenerateContent (log s))%nat /\
  (truthy (API_KEY env) = false -> synthesized (log s) = []).
Proof.
  cbn zeta.
  assert (Hinit : (audioUrl initial <> None -> error initial = None) /\
                  Forall (fun t => trim t <> "") (synthesized (log initial)) /\
                  (calls is_CreateObjectURL (log initial)
                   <= calls is_GenerateContent (log initial))%nat /\
                  (truthy (API_KEY env) = false ->
                   synthesized (log initial) = [])).
  { repeat split; [apply Forall_nil_2 | reflexivity]. }
  revert Hinit. generalize initial.
  induction ops as [|op ops IH]; intros s Hs; [exact Hs|].
  cbn. apply IH. apply step_keeps, Hs.
Qed.

End Synthesis.

Lemma X13_witness :
  let s' := exec (handleFileChange (Some example_pdf)
                    {| loaded := false; pdf := None; docx := None |})
              after_success in
  isLoading s' = true /\
  text s' = "Procesando archivo: acta.pdf..." /\
  exec (handleGenerateAudio example_trim example_decode example_pcmToWavBlob
          example_createObjectURL example_env (Resolved audio_response)) s'
  = s'.
Proof.
  cbn zeta.
  pose proof (X13_reader_that_never_loads_blocks_the_panel example_trim
                example_decode example_pcmToWavBlob example_createObjectURL
                example_pdf {| loaded := false; pdf := None; docx := None |}
                after_success eq_refl (or_introl eq_refl))
    as (Hloading & Htext & _ & _ & Hblocked).
  split; [exact Hloading|]. split; [exact Htext|].
  apply Hblocked.
Defined.

Lemma X14_witness :
  let s' := exec (handleGenerateAudio example_trim example_decode
                    example_pcmToWavBlob example_createObjectURL example_env
                    (Resolved audio_response)) after_success in
  audioUrl s' = Some "blob:RIFFAAAA" /\
  error s' = None /\
  isLoading s' = false /\
  text s' = "hola" /\
  log s' = log after_success ++ [GenerateContent "hola"; CreateObjectURL].
Proof.
  apply (X14_synthesis_exposes_the_new_audio example_trim example_decode
           example_pcmToWavBlob example_createObjectURL example_env
           audio_response "AAAA" "AAAA" after_success).
  - vm_compute. discriminate.
  - reflexivity.
  - reflexivity.
  - reflexivity.
  - discriminate.
  - reflexivity.
Defined.

Lemma X15_witness :
  let s' := exec (handleGenerateAudio example_trim
                    (fun _ => Rejected (A := string) "Invalid character")
                    example_pcmToWavBlob example_createObjectURL example_env
                    (Resolved audio_response)) after_success in
  audioUrl s' = None /\
  error s' = Some ("Fallo al generar audio: " +:+ "Invalid character") /\
  isLoading s' = false /\
  log s' = log after_success ++ [GenerateContent "hola"].
Proof.
  apply (X15_undecodable_audio_is_a_failure example_trim
           (fun _ => Rejected (A := string) "Invalid character")
           example_pcmToWavBlob example_createObjectURL example_env
           audio_response "AAAA" "Invalid character" after_success).
  - vm_compute. discriminate.
  - reflexivity.
  - reflexivity.
  - reflexivity.
  - discriminate.
  - reflexivity.
Defined.

Lemma X16_witness :
  let s' := exec (handleGenerateAudio example_trim example_decode
                    example_pcmToWavBlob example_createObjectURL
                    no_credential (Resolved audio_response)) after_success in
  error s'
  = Some ("Fallo al generar audio: " +:+ "API_KEY environment variable not set.") /\
  audioUrl s' = None /\
  isLoading s' = false /\
  log s' = log after_success.
Proof.
  apply (X16_synthesis_without_credential_calls_nothing example_trim
           example_decode example_pcmToWavBlob example_createObjectURL
           no_credential (Resolved audio_response) after_success).
  - vm_compute. discriminate.
  - reflexivity.
  - reflexivity.
Defined.

Lemma X17_witness :
  let ops := [TextChange "hola"; GenerateAudio (Resolved audio_response)] in
  let with_key := run example_trim example_decode example_pcmToWavBlob
                    example_createObjectURL example_env ops initial in
  let without := run example_trim example_decode example_pcmToWavBlob
                   example_createObjectURL no_credential ops initial in
  audioUrl with_key = Some "blob:RIFFAAAA" /\
  error with_key = None /\
  synthesized (log without) = [].
Proof.
  cbn zeta.
  pose proof (X17_panel_never_synthesizes_blank_text example_trim
                example_decode example_pcmToWavBlob example_createObjectURL
                example_env
                [TextChange "hola"; GenerateAudio (Resolved audio_response)])
    as (Hshown & _).
  pose proof (X17_panel_never_synthesizes_blank_text example_trim
                example_decode example_pcmToWavBlob example_createObjectURL
                no_credential
                [TextChange "hola"; GenerateAudio (Resolved audio_response)])
    as (_ & _ & _ & Hnone).
  split; [vm_compute; reflexivity|].
  split; [apply Hshown; vm_compute; discriminate | apply Hnone; reflexivity].
Defined.

(** *** The synthesis service *)

(** X18. [generateSpeechFromText] calls the service exactly when a
    credential is set, and returns audio data exactly when, besides, the
    service answers and the first part of the first candidate of the answer
    holds data that is not empty; the data returned is that one.  Further
    candidates and parts are not looked at. *)
Theorem X18_speech_is_the_first_part_of_the_first_candidate (env : Env)
  (text : string) (service : Settled GenerateContentResponse) :
  fst (generateSpeechFromText env text service) = truthy (API_KEY env) /\
  (forall base64 : string,
     snd (generateSpeechFromText env text service) = Resolved base64 <->
     truthy (API_KEY env) = true /\
     exists response,
       service = Resolved response /\
       base64Audio response = Some base64 /\ base64 <> "") /\
  (forall (first : Candidate) (others : list Candidate)
          (part : Part) (parts' : list Part),
     content first = Some {| parts := Some (part :: parts') |} ->
     base64Audio {| candidates := Some (first :: others) |}
     = inlineData part ≫= data).
Proof.
  unfold generateSpeechFromText.
  split; [|split].
  - destruct (truthy (API_KEY env)); reflexivity.
  - intros base64. destruct (truthy (API_KEY env)); cbn.
    + destruct service as [message|response]; cbn.
      * split; [discriminate|]. intros (_ & response & [=] & _).
      * destruct (base64Audio response) as [b|] eqn:Haudio; cbn.
        -- destruct (String.eqb_spec b "") as [->|Hb]; cbn.
           ++ split; [discriminate|].
              intros (_ & r & [= <-] & Hr & Hne).
              rewrite Haudio in Hr. injection Hr as <-. contradiction.
           ++ split.
              ** intros [= <-]. split; [reflexivity|].
                 exists response. repeat split; assumption.
              ** intros (_ & r & [= <-] & Hr & _).
                 rewrite Haudio in Hr. injection Hr as <-. reflexivity.
        -- split; [discriminate|].
           intros (_ & r & [= <-] & Hr & _). rewrite Haudio in Hr.
           discriminate.
    + split; [discriminate|]. intros ([=] & _).
  - intros first others part parts' Hcontent.
    unfold base64Audio. cbn. rewrite Hcontent. cbn.
    destruct (inlineData part); reflexivity.
Qed.

Lemma X18_witness :
  snd (generateSpeechFromText example_env "hola" (Resolved audio_response))
  = Resolved "AAAA" /\
  base64Audio audio_response = Some "AAAA".
Proof.
  pose proof (X18_speech_is_the_first_part_of_the_first_candidate
                example_env "hola" (Resolved audio_response))
    as (_ & Hiff & Hfirst).
  split.
  - apply Hiff. split; [reflexivity|].
    exists audio_response. repeat split. discriminate.
  - exact (Hfirst
             {| content :=
                  Some {| parts :=
                            Some [ {| inlineData :=
                                        Some {| data := Some "AAAA" |} |} ]
                       |} |}
             [] {| inlineData := Some {| data := Some "AAAA" |} |} []
             eq_refl).
Defined.

End TextToSpeechPanelExtra.

(** ** Properties of the application shell *)

Module AppExtra.

Import App.



End AppExtra.
